(** * The user profile page ([src/app/users/[id]/page.tsx])

    A shallow embedding of the React component [UserProfilePage]: its six
    state cells, the two asynchronous loaders started by its effect, and
    the JSX it returns, followed by the properties of the fetch-and-render
    flow. *)

From Stdlib Require Import String List ZArith Bool Arith Lia.
Import ListNotations.
Local Open Scope string_scope.
Set Warnings "-register-all".

(** ** JavaScript values

    What [res.json()] can produce, plus [undefined], which property access
    yields for a missing property.  Numbers are carried by their integer
    value: the page only passes them through (list keys, link targets)
    and tests them for truthiness.  An object is the list of its own
    properties; the first binding of a key is the one that is read. *)

Inductive JsValue : Type :=
| JUndefined
| JNull
| JBool (b : bool)
| JNum (n : Z)
| JStr (s : string)
| JArr (items : list JsValue)
| JObj (fields : list (string * JsValue)).

(** Evaluating an expression either yields a value or throws a TypeError
    (a property read on [null] or [undefined], a call of a non-function). *)

Inductive Result (A : Type) : Type :=
| Ok (a : A)
| TypeError.
Arguments Ok {A} a.
Arguments TypeError {A}.

Definition rbind {A B} (r : Result A) (k : A -> Result B) : Result B :=
  match r with
  | Ok a => k a
  | TypeError => TypeError
  end.

Declare Scope result_scope.
Delimit Scope result_scope with result.
Notation "x <- r ;; k" := (rbind r (fun x => k))
  (at level 61, r at next level, right associativity) : result_scope.

(** The property names the page reads. *)

Inductive Field : Type :=
| f_id | f_name | f_username | f_email | f_phone | f_website | f_address
| f_street | f_suite | f_city | f_zipcode | f_geo | f_lat | f_lng
| f_title | f_body.

Definition field_key (f : Field) : string :=
  match f with
  | f_id => "id" | f_name => "name" | f_username => "username"
  | f_email => "email" | f_phone => "phone" | f_website => "website"
  | f_address => "address" | f_street => "street" | f_suite => "suite"
  | f_city => "city" | f_zipcode => "zipcode" | f_geo => "geo"
  | f_lat => "lat" | f_lng => "lng" | f_title => "title" | f_body => "body"
  end.

Fixpoint lookup (k : string) (fields : list (string * JsValue)) : JsValue :=
  match fields with
  | [] => JUndefined
  | (k', v) :: rest => if String.eqb k k' then v else lookup k rest
  end.

Definition nullish (v : JsValue) : bool :=
  match v with
  | JUndefined | JNull => true
  | _ => false
  end.

(** [v.f]: a TypeError on [null] and [undefined]; the property of an
    object; [undefined] on booleans, numbers, strings and arrays, none of
    which has a property named by a [Field]. *)

Definition get (v : JsValue) (f : Field) : Result JsValue :=
  match v with
  | JUndefined | JNull => TypeError
  | JObj fields => Ok (lookup (field_key f) fields)
  | _ => Ok JUndefined
  end.

(** [v?.f.g...]: when [v] is nullish the whole chain is skipped and is
    [undefined]; otherwise the rest of the chain is ordinary access. *)

Fixpoint get_path (v : JsValue) (path : list Field) : Result JsValue :=
  match path with
  | [] => Ok v
  | f :: rest => (x <- get v f ;; get_path x rest)%result
  end.

Definition opt_chain (v : JsValue) (path : list Field) : Result JsValue :=
  if nullish v then Ok JUndefined else get_path v path.

(** Truthiness, as a condition or the left operand of [&&] sees it. *)

Definition truthy (v : JsValue) : bool :=
  match v with
  | JUndefined | JNull => false
  | JBool b => b
  | JNum n => negb (n =? 0)%Z
  | JStr s => negb (String.eqb s "")
  | JArr _ | JObj _ => true
  end.

(** A state cell of type [string | null] used as a condition: the
    string when the condition holds ([null] and the empty string are
    falsy). *)

Definition truthy_msg (m : option string) : option string :=
  match m with
  | None => None
  | Some s => if String.eqb s "" then None else Some s
  end.

(** ** What can be thrown and awaited

    A caught value is either an instance of [Error], with its [message],
    or any other value. *)

Inductive Thrown : Type :=
| ErrorObject (message : string)
| PlainValue (v : JsValue).

Inductive Settled (A : Type) : Type :=
| Resolved (a : A)
| Rejected (t : Thrown).
Arguments Resolved {A} a.
Arguments Rejected {A} t.

(** A response: its HTTP status and what [res.json()] settles to.
    [res.ok] holds for the statuses 200 to 299. *)

Record Response : Type := {
  status : nat;
  json : Settled JsValue
}.

Definition ok (res : Response) : bool :=
  ((200 <=? status res)%nat && (status res <=? 299)%nat)%bool.

(** ** Component state (lines 44-49) *)

Record State : Type := {
  user : JsValue;
  posts : JsValue;
  loadingUser : bool;
  loadingPosts : bool;
  errorUser : option string;
  errorPosts : option string
}.

Definition initial : State :=
  {| user := JNull; posts := JArr [];
     loadingUser := true; loadingPosts := true;
     errorUser := None; errorPosts := None |}.

(** ** Asynchronous functions over the component state

    A computation reads and updates the state cells and either completes
    or throws.  The setter calls a loader makes after its last [await]
    run in one uninterrupted turn of the event loop, and React (the
    version that provides [React.use], line 41) commits the updates of
    one turn together: the state they produce together is the next state
    the component renders with. *)

Definition Async (A : Type) : Type := State -> Settled A * State.

Definition ret {A} (a : A) : Async A := fun s => (Resolved a, s).

Definition bind {A B} (m : Async A) (k : A -> Async B) : Async B :=
  fun s =>
    match m s with
    | (Resolved a, s') => k a s'
    | (Rejected t, s') => (Rejected t, s')
    end.

Definition throw {A} (t : Thrown) : Async A := fun s => (Rejected t, s).

(** [await p] for a promise that settles to [p]. *)
Definition await {A} (p : Settled A) : Async A := fun s => (p, s).

Definition when (c : bool) (m : Async unit) : Async unit :=
  if c then m else ret tt.

(** [try { body } catch (err) { handler err } finally { fin }]. *)
Definition try_catch_finally
    (body : Async unit) (handler : Thrown -> Async unit) (fin : Async unit)
  : Async unit :=
  fun s =>
    let '(r1, s1) := body s in
    let '(r2, s2) :=
      match r1 with
      | Resolved _ => (r1, s1)
      | Rejected err => handler err s1
      end in
    let '(r3, s3) := fin s2 in
    match r3 with
    | Resolved _ => (r2, s3)
    | Rejected t => (Rejected t, s3)
    end.

Declare Scope async_scope.
Delimit Scope async_scope with async.
Notation "x <- m ;; k" := (bind m (fun x => k))
  (at level 61, m at next level, right associativity) : async_scope.
Notation "m ;; k" := (bind m (fun _ => k))
  (at level 61, right associativity) : async_scope.

Definition setUser (v : JsValue) : Async unit := fun s =>
  (Resolved tt,
   {| user := v; posts := posts s;
      loadingUser := loadingUser s; loadingPosts := loadingPosts s;
      errorUser := errorUser s; errorPosts := errorPosts s |}).

Definition setPosts (v : JsValue) : Async unit := fun s =>
  (Resolved tt,
   {| user := user s; posts := v;
      loadingUser := loadingUser s; loadingPosts := loadingPosts s;
      errorUser := errorUser s; errorPosts := errorPosts s |}).

Definition setLoadingUser (b : bool) : Async unit := fun s =>
  (Resolved tt,
   {| user := user s; posts := posts s;
      loadingUser := b; loadingPosts := loadingPosts s;
      errorUser := errorUser s; errorPosts := errorPosts s |}).

Definition setLoadingPosts (b : bool) : Async unit := fun s =>
  (Resolved tt,
   {| user := user s; posts := posts s;
      loadingUser := loadingUser s; loadingPosts := b;
      errorUser := errorUser s; errorPosts := errorPosts s |}).

Definition setErrorUser (m : string) : Async unit := fun s =>
  (Resolved tt,
   {| user := user s; posts := posts s;
      loadingUser := loadingUser s; loadingPosts := loadingPosts s;
      errorUser := Some m; errorPosts := errorPosts s |}).

Definition setErrorPosts (m : string) : Async unit := fun s =>
  (Resolved tt,
   {| user := user s; posts := posts s;
      loadingUser := loadingUser s; loadingPosts := loadingPosts s;
      errorUser := errorUser s; errorPosts := Some m |}).

(** ** The two loaders (lines 54-86)

    [fetched] is what the promise returned by [fetch(url)] settles to;
    the request itself is issued by the effect, below. *)

Definition fetchUser (fetched : Settled Response) : Async unit :=
  try_catch_finally
    (res <- await fetched ;;
     when (negb (ok res)) (throw (ErrorObject "Failed to fetch user")) ;;
     data <- await (json res) ;;
     setUser data)%async
    (fun err =>
       match err with
       | ErrorObject message => setErrorUser message
       | PlainValue _ => setErrorUser "An unknown error occurred"
       end)
    (setLoadingUser false).

Definition fetchPosts (fetched : Settled Response) : Async unit :=
  try_catch_finally
    (res <- await fetched ;;
     when (negb (ok res)) (throw (ErrorObject "Failed to fetch posts")) ;;
     data <- await (json res) ;;
     setPosts data)%async
    (fun err =>
       match err with
       | ErrorObject message => setErrorPosts message
       | PlainValue _ => setErrorPosts "An unknown error occurred"
       end)
    (setLoadingPosts false).

(** The state once the loader has run to its end. *)
Definition after {A} (m : Async A) (s : State) : State := snd (m s).

(** ** The declared shapes (lines 7-32)

    [User | null] and [Post[]] are compile-time types; at run time the
    cells hold whatever [res.json()] produced.  These predicates say that
    a value has the declared shape (extra properties are allowed). *)

Definition is_string (v : JsValue) : bool :=
  match v with JStr _ => true | _ => false end.

Definition is_number (v : JsValue) : bool :=
  match v with JNum _ => true | _ => false end.

Definition conforms_Geo (v : JsValue) : bool :=
  match v with
  | JObj fs => is_string (lookup "lat" fs) && is_string (lookup "lng" fs)
  | _ => false
  end.

Definition conforms_Address (v : JsValue) : bool :=
  match v with
  | JObj fs =>
      is_string (lookup "street" fs) && is_string (lookup "suite" fs)
      && is_string (lookup "city" fs) && is_string (lookup "zipcode" fs)
      && conforms_Geo (lookup "geo" fs)
  | _ => false
  end.

Definition conforms_User (v : JsValue) : bool :=
  match v with
  | JObj fs =>
      is_number (lookup "id" fs) && is_string (lookup "name" fs)
      && is_string (lookup "username" fs) && is_string (lookup "email" fs)
      && is_string (lookup "phone" fs) && is_string (lookup "website" fs)
      && conforms_Address (lookup "address" fs)
  | _ => false
  end.

Definition conforms_Post (v : JsValue) : bool :=
  match v with
  | JObj fs =>
      is_number (lookup "id" fs) && is_string (lookup "title" fs)
      && is_string (lookup "body" fs)
  | _ => false
  end.

(** [User | null], the type of the [user] cell. *)
Definition conforms_User_or_null (v : JsValue) : bool :=
  match v with JNull => true | _ => conforms_User v end.

(** [Post[]], the type of the [posts] cell. *)
Definition conforms_Posts (v : JsValue) : bool :=
  match v with JArr items => forallb conforms_Post items | _ => false end.

(** ** What the component returns (lines 92-157)

    The element tree, reduced to its content: fixed texts, the values
    substituted into it, and which alternative of each conditional was
    taken.  A template literal with one substitution is kept as its
    fixed prefix and the substituted value. *)

Record Template : Type := {
  prefix : string;
  hole : JsValue
}.

Record Profile : Type := {
  heading : JsValue;          (* h1: user?.name *)
  badge : JsValue;            (* span: user?.username *)
  email_href : Template;      (* mailto:${user?.email} *)
  email_text : JsValue;
  phone_text : JsValue;
  website_href : Template;    (* http://${user?.website} *)
  website_text : JsValue;
  street_text : JsValue;
  suite_text : JsValue;
  city_text : JsValue;
  zipcode_text : JsValue
}.

Inductive MapRegion : Type :=
| UserMap                                  (* <UserMap /> *)
| MapPlaceholder (text : string).

Record PostCard : Type := {
  key : JsValue;              (* post.id *)
  link_href : Template;       (* /posts/${post.id} *)
  link_text : JsValue;        (* post.title *)
  card_body : JsValue         (* post.body *)
}.

Inductive PostsSection : Type :=
| PostsSpinner (label : string)
| PostsError (message : string)
| PostsGrid (cards : list PostCard).

Inductive View : Type :=
| Spinner (label : string)
| ErrorMessage (message : string)
| Page (profile : Profile) (map : MapRegion) (section : PostsSection).

Local Open Scope result_scope.

(** String coercion, as a template literal and a list key apply it.
    It completes on primitives; on an array it joins the coerced
    elements ([null] and [undefined] count as empty); on an object it
    calls [toString], which for a parsed body is [Object.prototype]'s
    unless the object has an own property of that name: such a property
    is never callable, [valueOf] then returns the object itself, and the
    coercion throws a TypeError.  [stringifies v] says that the coercion
    of [v] completes. *)

Definition has_key (k : string) (fields : list (string * JsValue)) : bool :=
  existsb (fun kv => String.eqb k (fst kv)) fields.

Fixpoint stringifies (v : JsValue) : bool :=
  match v with
  | JArr items => forallb stringifies items
  | JObj fields => negb (has_key "toString" fields)
  | _ => true
  end.

(** The template literal [`prefix${v}`]: its fixed prefix and the value
    whose string follows it. *)
Definition template (prefix : string) (v : JsValue) : Result Template :=
  if stringifies v then Ok {| prefix := prefix; hole := v |} else TypeError.

(** [key={v}]: the element's key is the string of [v]; kept as [v]. *)
Definition as_key (v : JsValue) : Result JsValue :=
  if stringifies v then Ok v else TypeError.

(** Lines 108-114. *)
Definition render_profile (u : JsValue) : Result Profile :=
  name <- opt_chain u [f_name] ;;
  username <- opt_chain u [f_username] ;;
  email <- opt_chain u [f_email] ;;
  mailto <- template "mailto:" email ;;
  phone <- opt_chain u [f_phone] ;;
  website <- opt_chain u [f_website] ;;
  http <- template "http://" website ;;
  street <- opt_chain u [f_address; f_street] ;;
  suite <- opt_chain u [f_address; f_suite] ;;
  city <- opt_chain u [f_address; f_city] ;;
  zipcode <- opt_chain u [f_address; f_zipcode] ;;
  Ok {| heading := name; badge := username;
        email_href := mailto;
        email_text := email; phone_text := phone;
        website_href := http;
        website_text := website;
        street_text := street; suite_text := suite;
        city_text := city; zipcode_text := zipcode |}.

(** Lines 121-125.  The right operand of [&&] is only evaluated when the
    left one is truthy. *)
Definition render_map (u : JsValue) : Result MapRegion :=
  lat <- opt_chain u [f_address; f_geo; f_lat] ;;
  if truthy lat then
    lng <- opt_chain u [f_address; f_geo; f_lng] ;;
    Ok (if truthy lng then UserMap
        else MapPlaceholder "Map data not available")
  else Ok (MapPlaceholder "Map data not available").

(** Lines 142-150, the callback of [posts.map]. *)
Definition render_card (post : JsValue) : Result PostCard :=
  id <- get post f_id ;;
  k <- as_key id ;;
  href <- template "/posts/" id ;;
  title <- get post f_title ;;
  body <- get post f_body ;;
  Ok {| key := k; link_href := href;
        link_text := title; card_body := body |}.

Fixpoint map_result {A B} (f : A -> Result B) (l : list A)
  : Result (list B) :=
  match l with
  | [] => Ok []
  | x :: rest => y <- f x ;; ys <- map_result f rest ;; Ok (y :: ys)
  end.

(** [posts.map(callback)]: only an array has a callable [map]. *)
Definition posts_map (f : JsValue -> Result PostCard) (v : JsValue)
  : Result (list PostCard) :=
  match v with
  | JArr items => map_result f items
  | _ => TypeError
  end.

(** Lines 132-153. *)
Definition render_posts (s : State) : Result PostsSection :=
  if loadingPosts s then Ok (PostsSpinner "Loading posts...")
  else
    match truthy_msg (errorPosts s) with
    | Some message => Ok (PostsError message)
    | None => cards <- posts_map render_card (posts s) ;; Ok (PostsGrid cards)
    end.

(** Lines 92-157. *)
Definition render (s : State) : Result View :=
  if loadingUser s then Ok (Spinner "Loading user...")
  else
    match truthy_msg (errorUser s) with
    | Some message => Ok (ErrorMessage message)
    | None =>
        profile <- render_profile (user s) ;;
        map <- render_map (user s) ;;
        section <- render_posts s ;;
        Ok (Page profile map section)
    end.

Local Close Scope result_scope.

(** ** The effect and the life of one mounted component (lines 51-90)

    Besides the state cells, the world around the component holds the
    dependency the effect last ran with, the URLs passed to [fetch] so
    far (oldest first), and how many calls of each loader are still
    waiting for their response. *)

Definition userUrl (id : string) : string :=
  "https://jsonplaceholder.typicode.com/users/" ++ id.

Definition postsUrl (id : string) : string :=
  "https://jsonplaceholder.typicode.com/posts?userId=" ++ id.

Record World : Type := {
  state : State;
  deps : string;
  requests : list string;
  awaitingUser : nat;
  awaitingPosts : nat
}.

(** The effect body: nothing for a falsy [id]; otherwise [fetchUser()]
    and [fetchPosts()] each run up to their first [await], which issues
    the request. *)
Definition effect (id : string) (w : World) : World :=
  if String.eqb id "" then
    {| state := state w; deps := id; requests := requests w;
       awaitingUser := awaitingUser w; awaitingPosts := awaitingPosts w |}
  else
    {| state := state w; deps := id;
       requests := requests w ++ [userUrl id; postsUrl id];
       awaitingUser := S (awaitingUser w);
       awaitingPosts := S (awaitingPosts w) |}.

(** Mounting: the cells take their initial values and the effect runs. *)
Definition mount (id : string) : World :=
  effect id
    {| state := initial; deps := id; requests := [];
       awaitingUser := 0; awaitingPosts := 0 |}.

Inductive Event : Type :=
| Rerender (id : string)               (* a later render, with [params.id] *)
| UserSettles (fetched : Settled Response)
| PostsSettles (fetched : Settled Response).

(** A later render runs the effect again only when [id] differs from the
    dependency of its last run.  A response resumes a waiting loader. *)
Definition step (w : World) (e : Event) : World :=
  match e with
  | Rerender id =>
      if String.eqb id (deps w) then w else effect id w
  | UserSettles fetched =>
      match awaitingUser w with
      | 0 => w
      | S n =>
          {| state := after (fetchUser fetched) (state w); deps := deps w;
             requests := requests w;
             awaitingUser := n; awaitingPosts := awaitingPosts w |}
      end
  | PostsSettles fetched =>
      match awaitingPosts w with
      | 0 => w
      | S n =>
          {| state := after (fetchPosts fetched) (state w); deps := deps w;
             requests := requests w;
             awaitingUser := awaitingUser w; awaitingPosts := n |}
      end
  end.

Definition run (w : World) (events : list Event) : World :=
  fold_left step events w.

(** The events of a component that stays mounted with the same [id]. *)
Definition keeps_id (id : string) (e : Event) : bool :=
  match e with
  | Rerender id' => String.eqb id' id
  | _ => true
  end.

(** ** The three phases of a resource

    Pending: the flag is up and nothing has been stored.  Success: the
    flag is down and no error is stored; the payload is what the cell
    holds.  Failed: the flag is down, an error message is stored and the
    payload cell was left alone. *)

Definition user_pending (s : State) : Prop :=
  loadingUser s = true /\ errorUser s = None /\ user s = JNull.

Definition user_success (s : State) : Prop :=
  loadingUser s = false /\ errorUser s = None.

Definition user_failed (s : State) : Prop :=
  loadingUser s = false /\ (exists m, errorUser s = Some m) /\ user s = JNull.

Definition posts_pending (s : State) : Prop :=
  loadingPosts s = true /\ errorPosts s = None /\ posts s = JArr [].

Definition posts_success (s : State) : Prop :=
  loadingPosts s = false /\ errorPosts s = None.

Definition posts_failed (s : State) : Prop :=
  loadingPosts s = false /\ (exists m, errorPosts s = Some m)
  /\ posts s = JArr [].

Definition exactly_one (P Q R : Prop) : Prop :=
  (P \/ Q \/ R) /\ ~ (P /\ Q) /\ ~ (P /\ R) /\ ~ (Q /\ R).

(** What holds throughout the life of a component mounted with [id]:
    the effect has run once, and a resource is pending for as long as its
    loader is waiting and settled afterwards. *)
Definition lifetime_inv (id : string) (w : World) : Prop :=
  deps w = id
  /\ requests w = (if String.eqb id "" then [] else [userUrl id; postsUrl id])
  /\ ((awaitingUser w <= 1 /\ user_pending (state w))
      \/ (awaitingUser w = 0
          /\ (user_success (state w) \/ user_failed (state w))))
  /\ ((awaitingPosts w <= 1 /\ posts_pending (state w))
      \/ (awaitingPosts w = 0
          /\ (posts_success (state w) \/ posts_failed (state w)))).

(** What a loader's [try] block ends with: the parsed body, or the value
    that reaches the [catch]. *)
Definition outcome (failure : string) (fetched : Settled Response)
  : Settled JsValue :=
  match fetched with
  | Rejected t => Rejected t
  | Resolved res =>
      if ok res then json res else Rejected (ErrorObject failure)
  end.

(** [throws failure fetched t]: the [try] block of a loader throws [t],
    in one of the three ways it can: [fetch] rejects, the status is not a
    success status, or [res.json()] rejects. *)
Inductive throws (failure : string) : Settled Response -> Thrown -> Prop :=
| throws_transport (t : Thrown) :
    throws failure (Rejected t) t
| throws_status (res : Response) :
    ok res = false ->
    throws failure (Resolved res) (ErrorObject failure)
| throws_parse (res : Response) (t : Thrown) :
    ok res = true -> json res = Rejected t ->
    throws failure (Resolved res) t.

(** The message a [catch] block stores for a caught value. *)
Definition caught_message (t : Thrown) : string :=
  match t with
  | ErrorObject message => message
  | PlainValue _ => "An unknown error occurred"
  end.

(** The parts of a view. *)
Definition profile_of (v : Result View) : option Profile :=
  match v with Ok (Page p _ _) => Some p | _ => None end.

Definition map_of (v : Result View) : option MapRegion :=
  match v with Ok (Page _ m _) => Some m | _ => None end.

Definition section_of (v : Result View) : option PostsSection :=
  match v with Ok (Page _ _ ps) => Some ps | _ => None end.

(** A value of type [string | null | undefined]. *)
Definition optional_string (v : JsValue) : bool :=
  match v with
  | JStr _ | JNull | JUndefined => true
  | _ => false
  end.

(** A value that is present and is a non-empty string. *)
Definition nonempty_string (v : JsValue) : Prop :=
  exists a, v = JStr a /\ a <> "".

(** The profile card in which every substituted value is [undefined]. *)
Definition blank_profile : Profile :=
  {| heading := JUndefined; badge := JUndefined;
     email_href := {| prefix := "mailto:"; hole := JUndefined |};
     email_text := JUndefined; phone_text := JUndefined;
     website_href := {| prefix := "http://"; hole := JUndefined |};
     website_text := JUndefined;
     street_text := JUndefined; suite_text := JUndefined;
     city_text := JUndefined; zipcode_text := JUndefined |}.

(** ** Sample data *)

Definition sample_user (lat lng : string) : JsValue :=
  JObj [("id", JNum 1); ("name", JStr "Leanne Graham");
        ("username", JStr "Bret"); ("email", JStr "Sincere@april.biz");
        ("address",
         JObj [("street", JStr "Kulas Light"); ("suite", JStr "Apt. 556");
               ("city", JStr "Gwenborough"); ("zipcode", JStr "92998-3874");
               ("geo", JObj [("lat", JStr lat); ("lng", JStr lng)])]);
        ("phone", JStr "1-770-736-8031 x56442");
        ("website", JStr "hildegard.org")].

(** The profile card of a sample user. *)
Definition sample_profile : Profile :=
  {| heading := JStr "Leanne Graham"; badge := JStr "Bret";
     email_href := {| prefix := "mailto:"; hole := JStr "Sincere@april.biz" |};
     email_text := JStr "Sincere@april.biz";
     phone_text := JStr "1-770-736-8031 x56442";
     website_href := {| prefix := "http://"; hole := JStr "hildegard.org" |};
     website_text := JStr "hildegard.org";
     street_text := JStr "Kulas Light"; suite_text := JStr "Apt. 556";
     city_text := JStr "Gwenborough"; zipcode_text := JStr "92998-3874" |}.

Definition sample_post : JsValue :=
  JObj [("userId", JNum 1); ("id", JNum 1);
        ("title", JStr "T1"); ("body", JStr "B1")].

Definition respond (code : nat) (body : JsValue) : Settled Response :=
  Resolved {| status := code; json := Resolved body |}.

(** ** Which data the renderer accepts

    As soon as the user is not nullish, the user section needs [email]
    and [website] to coerce to strings and [address] and [address.geo]
    not to be nullish; the grid needs an array of elements that are not
    nullish and whose [id] coerces to a string. *)

Definition renderable_user (u : JsValue) : bool :=
  nullish u
  || match get u f_email, get u f_website, get u f_address with
     | Ok email, Ok website, Ok a =>
         stringifies email && stringifies website
         && negb (nullish a)
         && match get a f_geo with
            | Ok g => negb (nullish g)
            | TypeError => false
            end
     | _, _, _ => false
     end.

Definition renderable_post (post : JsValue) : bool :=
  match get post f_id with
  | Ok id => stringifies id
  | TypeError => false
  end.

Definition renderable_posts (v : JsValue) : bool :=
  match v with
  | JArr items => forallb renderable_post items
  | _ => false
  end.

(** What a card shows of its post. *)
Definition card_of (post : JsValue) (card : PostCard) : Prop :=
  get post f_id = Ok (key card)
  /\ link_href card = {| prefix := "/posts/"; hole := key card |}
  /\ get post f_title = Ok (link_text card)
  /\ get post f_body = Ok (card_body card).

(** ** Requests over changes of the identifier *)

Definition request_pair (id : string) : list string :=
  [userUrl id; postsUrl id].

(** The identifiers for which the effect calls the loaders: the one the
    component is mounted with and every later one that differs from its
    predecessor, the empty ones left out. *)
Definition loads (id : string) : list string :=
  if String.eqb id "" then [] else [id].

Fixpoint started (last : string) (events : list Event) : list string :=
  match events with
  | [] => []
  | Rerender id :: rest =>
      if String.eqb id last then started last rest
      else loads id ++ started id rest
  | _ :: rest => started last rest
  end.

(** The body a response delivers to the state: that of a success status
    whose JSON parses. *)
Definition body_of (fetched : Settled Response) : option JsValue :=
  match fetched with
  | Resolved res =>
      if ok res then
        match json res with
        | Resolved data => Some data
        | Rejected _ => None
        end
      else None
  | Rejected _ => None
  end.

(** A response that delivers a body of the declared type, if any. *)
Definition honours_contract (e : Event) : bool :=
  match e with
  | Rerender _ => true
  | UserSettles fetched =>
      match body_of fetched with
      | Some data => conforms_User_or_null data
      | None => true
      end
  | PostsSettles fetched =>
      match body_of fetched with
      | Some data => conforms_Posts data
      | None => true
      end
  end.

(** ** The first response to each request *)

Fixpoint first_user (events : list Event) : option (Settled Response) :=
  match events with
  | [] => None
  | UserSettles fetched :: _ => Some fetched
  | _ :: rest => first_user rest
  end.

Fixpoint first_posts (events : list Event) : option (Settled Response) :=
  match events with
  | [] => None
  | PostsSettles fetched :: _ => Some fetched
  | _ :: rest => first_posts rest
  end.

Definition settle_user (o : option (Settled Response)) (s : State) : State :=
  match o with
  | Some fetched => after (fetchUser fetched) s
  | None => s
  end.

Definition settle_posts (o : option (Settled Response)) (s : State) : State :=
  match o with
  | Some fetched => after (fetchPosts fetched) s
  | None => s
  end.

(** * Properties *)

(** ** The loaders, in closed form *)

Lemma fetchUser_run (fetched : Settled Response) (s : State) :
  fetchUser fetched s =
  (Resolved tt,
   match outcome "Failed to fetch user" fetched with
   | Resolved data =>
       {| user := data; posts := posts s;
          loadingUser := false; loadingPosts := loadingPosts s;
          errorUser := errorUser s; errorPosts := errorPosts s |}
   | Rejected t =>
       {| user := user s; posts := posts s;
          loadingUser := false; loadingPosts := loadingPosts s;
          errorUser := Some (caught_message t); errorPosts := errorPosts s |}
   end).
Proof.
  destruct fetched as [res | t].
  - unfold fetchUser, try_catch_finally, bind, await, when, outcome; simpl.
    destruct (ok res); simpl.
    + destruct (json res) as [data | t]; simpl; [reflexivity |].
      destruct t; reflexivity.
    + reflexivity.
  - destruct t; reflexivity.
Qed.

Lemma fetchPosts_run (fetched : Settled Response) (s : State) :
  fetchPosts fetched s =
  (Resolved tt,
   match outcome "Failed to fetch posts" fetched with
   | Resolved data =>
       {| user := user s; posts := data;
          loadingUser := loadingUser s; loadingPosts := false;
          errorUser := errorUser s; errorPosts := errorPosts s |}
   | Rejected t =>
       {| user := user s; posts := posts s;
          loadingUser := loadingUser s; loadingPosts := false;
          errorUser := errorUser s; errorPosts := Some (caught_message t) |}
   end).
Proof.
  destruct fetched as [res | t].
  - unfold fetchPosts, try_catch_finally, bind, await, when, outcome; simpl.
    destruct (ok res); simpl.
    + destruct (json res) as [data | t]; simpl; [reflexivity |].
      destruct t; reflexivity.
    + reflexivity.
  - destruct t; reflexivity.
Qed.

Lemma ok_false_iff (res : Response) :
  ok res = false <-> (status res < 200 \/ 299 < status res)%nat.
Proof.
  unfold ok. rewrite andb_false_iff, !Nat.leb_gt. reflexivity.
Qed.

Lemma truthy_msg_nonempty (m : string) :
  m <> "" -> truthy_msg (Some m) = Some m.
Proof.
  intros Hm. simpl. destruct (String.eqb_spec m ""); [contradiction | reflexivity].
Qed.

(** Ends every [after]-of-a-loader goal: rewrite with the closed form and
    split on how the [try] block ended. *)
Ltac loader_cases fetched :=
  unfold after; rewrite ?fetchUser_run, ?fetchPosts_run; simpl;
  try match goal with
      | |- context [outcome ?f fetched] => destruct (outcome f fetched)
      end; simpl.

(** ** The life of a mounted component *)

Lemma mount_inv (id : string) : lifetime_inv id (mount id).
Proof.
  unfold lifetime_inv, mount, effect.
  destruct (String.eqb id ""); simpl;
    (split; [reflexivity | split; [reflexivity | split]]);
    left; (split; [lia | repeat split; reflexivity]).
Qed.

Lemma step_inv (id : string) (w : World) (e : Event) :
  keeps_id id e = true -> lifetime_inv id w -> lifetime_inv id (step w e).
Proof.
  intros Hid (Hdeps & Hreq & Hu & Hp).
  destruct e as [id' | fetched | fetched]; simpl in *.
  - apply String.eqb_eq in Hid. subst id'. rewrite Hdeps, String.eqb_refl.
    unfold lifetime_inv; auto.
  - destruct (awaitingUser w) as [| n] eqn:Hn.
    + unfold lifetime_inv; rewrite Hn; auto.
    + destruct Hu as [[Hle (Hl & He & Hv)] | [Hz _]]; [| lia].
      unfold lifetime_inv; simpl.
      split; [assumption | split; [assumption | split]].
      * right. split; [lia |].
        unfold user_success, user_failed. loader_cases fetched.
        -- left. split; [reflexivity | assumption].
        -- right. split; [reflexivity | split; [eexists; reflexivity | assumption]].
      * unfold posts_pending, posts_success, posts_failed in *.
        loader_cases fetched; assumption.
  - destruct (awaitingPosts w) as [| n] eqn:Hn.
    + unfold lifetime_inv; rewrite Hn; auto.
    + destruct Hp as [[Hle (Hl & He & Hv)] | [Hz _]]; [| lia].
      unfold lifetime_inv; simpl.
      split; [assumption | split; [assumption | split]].
      * unfold user_pending, user_success, user_failed in *.
        loader_cases fetched; assumption.
      * right. split; [lia |].
        unfold posts_success, posts_failed. loader_cases fetched.
        -- left. split; [reflexivity | assumption].
        -- right. split; [reflexivity | split; [eexists; reflexivity | assumption]].
Qed.

Lemma run_inv (id : string) (events : list Event) :
  forall w,
    forallb (keeps_id id) events = true ->
    lifetime_inv id w -> lifetime_inv id (run w events).
Proof.
  induction events as [| e events IH]; intros w Hall Hw; simpl in *.
  - exact Hw.
  - apply andb_prop in Hall. destruct Hall as [He Hrest].
    apply IH; [exact Hrest | apply step_inv; assumption].
Qed.

Lemma lifetime (id : string) (events : list Event) :
  forallb (keeps_id id) events = true ->
  lifetime_inv id (run (mount id) events).
Proof. intros H. apply run_inv; [exact H | apply mount_inv]. Qed.

Lemma user_phases_exclusive (s : State) :
  ~ (user_pending s /\ user_success s)
  /\ ~ (user_pending s /\ user_failed s)
  /\ ~ (user_success s /\ user_failed s).
Proof.
  unfold user_pending, user_success, user_failed.
  repeat split; intros [H1 H2].
  - destruct H1 as (H1 & _), H2 as (H2 & _). congruence.
  - destruct H1 as (H1 & _), H2 as (H2 & _). congruence.
  - destruct H1 as (_ & H1), H2 as (_ & [m H2] & _). congruence.
Qed.

Lemma posts_phases_exclusive (s : State) :
  ~ (posts_pending s /\ posts_success s)
  /\ ~ (posts_pending s /\ posts_failed s)
  /\ ~ (posts_success s /\ posts_failed s).
Proof.
  unfold posts_pending, posts_success, posts_failed.
  repeat split; intros [H1 H2].
  - destruct H1 as (H1 & _), H2 as (H2 & _). congruence.
  - destruct H1 as (H1 & _), H2 as (H2 & _). congruence.
  - destruct H1 as (_ & H1), H2 as (_ & [m H2] & _). congruence.
Qed.

Lemma throws_outcome (failure : string) (fetched : Settled Response)
    (t : Thrown) :
  throws failure fetched t <-> outcome failure fetched = Rejected t.
Proof.
  split.
  - intros H. destruct H as [t | res Hok | res t Hok Hjson]; simpl.
    + reflexivity.
    + rewrite Hok. reflexivity.
    + rewrite Hok. exact Hjson.
  - destruct fetched as [res | t0]; simpl.
    + destruct (ok res) eqn:Hok.
      * intros Hjson. apply throws_parse; assumption.
      * intros H. injection H as <-. apply throws_status; assumption.
    + intros H. injection H as <-. apply throws_transport.
Qed.

(** ** Rendering lemmas *)

Lemma render_loading (s : State) :
  loadingUser s = true -> render s = Ok (Spinner "Loading user...").
Proof. intros H. unfold render. rewrite H. reflexivity. Qed.

Lemma render_user_error (s : State) (m : string) :
  loadingUser s = false -> errorUser s = Some m -> m <> "" ->
  render s = Ok (ErrorMessage m).
Proof.
  intros Hl He Hm. unfold render.
  rewrite Hl, He, (truthy_msg_nonempty m Hm). reflexivity.
Qed.

Lemma render_page (s : State) (p : Profile) (m : MapRegion)
    (ps : PostsSection) :
  loadingUser s = false -> truthy_msg (errorUser s) = None ->
  render_profile (user s) = Ok p -> render_map (user s) = Ok m ->
  render_posts s = Ok ps ->
  render s = Ok (Page p m ps).
Proof.
  intros Hl He Hp Hm Hps. unfold render.
  rewrite Hl, He, Hp, Hm, Hps. reflexivity.
Qed.

Lemma render_page_inv (s : State) (p : Profile) (m : MapRegion)
    (ps : PostsSection) :
  render s = Ok (Page p m ps) ->
  loadingUser s = false /\ truthy_msg (errorUser s) = None
  /\ render_profile (user s) = Ok p /\ render_map (user s) = Ok m
  /\ render_posts s = Ok ps.
Proof.
  unfold render.
  destruct (loadingUser s); [discriminate |].
  destruct (truthy_msg (errorUser s)); [discriminate |].
  destruct (render_profile (user s)) as [p' |]; [| discriminate].
  destruct (render_map (user s)) as [m' |]; [| discriminate].
  destruct (render_posts s) as [ps' |]; [| discriminate].
  simpl. intros H. injection H as -> -> ->. repeat split; reflexivity.
Qed.

Lemma render_posts_error (s : State) (m : string) :
  loadingPosts s = false -> errorPosts s = Some m -> m <> "" ->
  render_posts s = Ok (PostsError m).
Proof.
  intros Hl He Hm. unfold render_posts.
  rewrite Hl, He, (truthy_msg_nonempty m Hm). reflexivity.
Qed.

Lemma is_string_stringifies (v : JsValue) :
  is_string v = true -> stringifies v = true.
Proof. destruct v; try discriminate; reflexivity. Qed.

Lemma is_number_stringifies (v : JsValue) :
  is_number v = true -> stringifies v = true.
Proof. destruct v; try discriminate; reflexivity. Qed.

Lemma template_stringifies (prefix : string) (v : JsValue) :
  stringifies v = true ->
  template prefix v = Ok {| prefix := prefix; hole := v |}.
Proof. intros H. unfold template. rewrite H. reflexivity. Qed.

Lemma as_key_stringifies (v : JsValue) :
  stringifies v = true -> as_key v = Ok v.
Proof. intros H. unfold as_key. rewrite H. reflexivity. Qed.

Lemma conforms_User_renders (u : JsValue) :
  conforms_User u = true ->
  (exists p, render_profile u = Ok p) /\ (exists m, render_map u = Ok m).
Proof.
  destruct u as [| | | | | | fs]; try discriminate. simpl.
  intros H. repeat (apply andb_prop in H; destruct H as [H ?]).
  unfold render_profile, render_map, opt_chain; simpl.
  rewrite !template_stringifies by (apply is_string_stringifies; assumption).
  destruct (lookup "address" fs) as [| | | | | | afs]; try discriminate.
  simpl in *.
  match goal with
  | Ha : (_ && conforms_Geo _)%bool = true |- _ =>
      apply andb_prop in Ha; destruct Ha as [_ Hg]
  end.
  destruct (lookup "geo" afs) as [| | | | | | gfs]; try discriminate.
  simpl. split; [eexists; reflexivity |].
  destruct (truthy (lookup "lat" gfs)); eexists; reflexivity.
Qed.

Lemma conforms_Posts_render (items : list JsValue) :
  forallb conforms_Post items = true ->
  exists cards, map_result render_card items = Ok cards.
Proof.
  induction items as [| post items IH]; simpl.
  - intros _. eexists; reflexivity.
  - intros H. apply andb_prop in H. destruct H as [Hpost Hrest].
    destruct (IH Hrest) as [cards Hcards]. rewrite Hcards.
    destruct post as [| | | | | | fs]; try discriminate. simpl in Hpost.
    apply andb_prop in Hpost. destruct Hpost as [Hpost _].
    apply andb_prop in Hpost. destruct Hpost as [Hid _].
    apply is_number_stringifies in Hid.
    unfold render_card. simpl.
    rewrite (as_key_stringifies _ Hid), (template_stringifies _ _ Hid).
    simpl. eexists; reflexivity.
Qed.

(** ** Failures of the loaders *)

(** C6.  A response whose status is outside 200-299 makes the loader
    store its fixed message, "Failed to fetch user" for the user and
    "Failed to fetch posts" for the posts, clear its flag and leave every
    other cell alone, whatever the body of the response is; from the
    pending phase this is the failed phase. *)
Theorem non_2xx_fixed_message (s : State) (res : Response) :
  (status res < 200 \/ 299 < status res)%nat ->
  (after (fetchUser (Resolved res)) s =
     {| user := user s; posts := posts s;
        loadingUser := false; loadingPosts := loadingPosts s;
        errorUser := Some "Failed to fetch user";
        errorPosts := errorPosts s |}
   /\ (user_pending s -> user_failed (after (fetchUser (Resolved res)) s)))
  /\ (after (fetchPosts (Resolved res)) s =
        {| user := user s; posts := posts s;
           loadingUser := loadingUser s; loadingPosts := false;
           errorUser := errorUser s;
           errorPosts := Some "Failed to fetch posts" |}
      /\ (posts_pending s ->
          posts_failed (after (fetchPosts (Resolved res)) s))).
Proof.
  intros Hstatus. apply ok_false_iff in Hstatus.
  unfold after. rewrite fetchUser_run, fetchPosts_run. simpl.
  rewrite Hstatus. simpl.
  split; (split; [reflexivity |]); intros (_ & _ & Hpayload);
    (split; [reflexivity | split; [eexists; reflexivity | exact Hpayload]]).
Qed.

Lemma non_2xx_fixed_message_witness :
  errorUser (after (fetchUser (respond 404 (sample_user "1" "2"))) initial)
    = Some "Failed to fetch user"
  /\ errorPosts (after (fetchPosts (respond 500 (JArr [sample_post]))) initial)
    = Some "Failed to fetch posts".
Proof.
  split.
  - destruct (non_2xx_fixed_message initial
                {| status := 404; json := Resolved (sample_user "1" "2") |})
      as [[H _] _].
    + simpl. lia.
    + unfold respond. rewrite H. reflexivity.
  - destruct (non_2xx_fixed_message initial
                {| status := 500; json := Resolved (JArr [sample_post]) |})
      as [_ [H _]].
    + simpl. lia.
    + unfold respond. rewrite H. reflexivity.
Defined.

(** C2, as stated, fails on both sides of the test the catch blocks
    make, which is [err instanceof Error] and not whether a message is
    carried: a thrown object that is not an [Error] but has a [message]
    gets the fallback text, not its message; and an [Error] without a
    message gets the empty string stored, not the fallback text. *)
Lemma caught_message_tests_instance :
  let plain := Rejected (PlainValue (JObj [("message", JStr "boom")])) in
  let bare := Rejected (ErrorObject "") in
  (throws "Failed to fetch user" plain
     (PlainValue (JObj [("message", JStr "boom")]))
   /\ errorUser (after (fetchUser plain) initial)
      = Some "An unknown error occurred"
   /\ errorUser (after (fetchUser plain) initial) <> Some "boom")
  /\ (throws "Failed to fetch user" bare (ErrorObject "")
      /\ errorUser (after (fetchUser bare) initial) = Some ""
      /\ errorUser (after (fetchUser bare) initial)
         <> Some "An unknown error occurred").
Proof.
  split; (split; [apply throws_transport | split; [reflexivity | discriminate]]).
Qed.

(** C2, amended.  Whatever the [try] block of a loader throws (a
    rejected [fetch], a status that is not a success, a rejected
    [res.json()]), the loader ends with its flag cleared and an error
    message stored, which from the pending phase is the failed phase.
    For a thrown [Error] the message stored is its message, as it is;
    for a thrown value that is not an [Error], whether or not it has a
    [message] property, the stored text is exactly
    "An unknown error occurred", and that text is what the view shows:
    alone for the user, and as the posts section of any page for the
    posts. *)
Theorem thrown_failure_message (s : State) (fetched : Settled Response)
    (t : Thrown) :
  (throws "Failed to fetch user" fetched t ->
   let s' := after (fetchUser fetched) s in
   loadingUser s' = false
   /\ (user_pending s -> user_failed s')
   /\ (forall m, t = ErrorObject m -> errorUser s' = Some m)
   /\ (forall v, t = PlainValue v ->
       errorUser s' = Some "An unknown error occurred"
       /\ render s' = Ok (ErrorMessage "An unknown error occurred")))
  /\
  (throws "Failed to fetch posts" fetched t ->
   let s' := after (fetchPosts fetched) s in
   loadingPosts s' = false
   /\ (posts_pending s -> posts_failed s')
   /\ (forall m, t = ErrorObject m -> errorPosts s' = Some m)
   /\ (forall v, t = PlainValue v ->
       errorPosts s' = Some "An unknown error occurred"
       /\ render_posts s' = Ok (PostsError "An unknown error occurred")
       /\ (forall p m ps, render s' = Ok (Page p m ps) ->
           ps = PostsError "An unknown error occurred"))).
Proof.
  split; intros Hthrows; apply throws_outcome in Hthrows;
    unfold after; rewrite ?fetchUser_run, ?fetchPosts_run; simpl;
    rewrite Hthrows; simpl.
  - split; [reflexivity |]. split; [| split].
    + intros (_ & _ & Hv). repeat split; [eexists; reflexivity | exact Hv].
    + intros m ->. reflexivity.
    + intros v ->. split; reflexivity.
  - split; [reflexivity |]. split; [| split].
    + intros (_ & _ & Hv). repeat split; [eexists; reflexivity | exact Hv].
    + intros m ->. reflexivity.
    + intros v ->. split; [reflexivity |]. split; [reflexivity |].
      intros p m ps Hr. apply render_page_inv in Hr.
      destruct Hr as (_ & _ & _ & _ & Hps).
      unfold render_posts in Hps. simpl in Hps. congruence.
Qed.

Lemma thrown_failure_message_witness :
  render (after (fetchUser (Rejected (PlainValue (JStr "boom")))) initial)
    = Ok (ErrorMessage "An unknown error occurred")
  /\ errorPosts
       (after (fetchPosts
                 (Resolved {| status := 200;
                              json := Rejected (ErrorObject "Unexpected token") |}))
              initial)
     = Some "Unexpected token".
Proof.
  split.
  - destruct (thrown_failure_message initial
                (Rejected (PlainValue (JStr "boom")))
                (PlainValue (JStr "boom"))) as [H _].
    destruct H as (_ & _ & _ & H).
    + apply throws_transport.
    + destruct (H (JStr "boom") eq_refl) as [_ Hr]. exact Hr.
  - destruct (thrown_failure_message initial
                (Resolved {| status := 200;
                             json := Rejected (ErrorObject "Unexpected token") |})
                (ErrorObject "Unexpected token")) as [_ H].
    destruct H as (_ & _ & H & _).
    + apply throws_parse; reflexivity.
    + apply (H "Unexpected token" eq_refl).
Defined.

(** ** Phases and requests over the life of the component *)

(** C3.  At every point in the life of a component mounted with [id]
    (after any sequence of responses and re-renders with that [id]),
    each of the two resources is in exactly one of the phases pending,
    success and failed.  Every run of a loader, whatever was fetched,
    completes with the resource's loading flag cleared. *)
Theorem one_phase_at_a_time (id : string) (events : list Event) :
  forallb (keeps_id id) events = true ->
  let s := state (run (mount id) events) in
  exactly_one (user_pending s) (user_success s) (user_failed s)
  /\ exactly_one (posts_pending s) (posts_success s) (posts_failed s)
  /\ (forall fetched s0,
        fst (fetchUser fetched s0) = Resolved tt
        /\ loadingUser (after (fetchUser fetched) s0) = false)
  /\ (forall fetched s0,
        fst (fetchPosts fetched s0) = Resolved tt
        /\ loadingPosts (after (fetchPosts fetched) s0) = false).
Proof.
  intros Hall s. destruct (lifetime id events Hall) as (_ & _ & Hu & Hp).
  fold s in Hu, Hp. split; [| split; [| split]].
  - split; [| apply user_phases_exclusive].
    destruct Hu as [[_ H] | [_ [H | H]]]; auto.
  - split; [| apply posts_phases_exclusive].
    destruct Hp as [[_ H] | [_ [H | H]]]; auto.
  - intros fetched s0. unfold after. rewrite fetchUser_run. simpl.
    destruct (outcome _ fetched); split; reflexivity.
  - intros fetched s0. unfold after. rewrite fetchPosts_run. simpl.
    destruct (outcome _ fetched); split; reflexivity.
Qed.

Lemma one_phase_at_a_time_witness :
  let s := state (run (mount "1")
                    [UserSettles (respond 200 (sample_user "1" "2"));
                     Rerender "1";
                     PostsSettles (Rejected (ErrorObject "Failed to fetch"))]) in
  exactly_one (user_pending s) (user_success s) (user_failed s)
  /\ exactly_one (posts_pending s) (posts_success s) (posts_failed s).
Proof.
  intros s.
  destruct (one_phase_at_a_time "1"
              [UserSettles (respond 200 (sample_user "1" "2"));
               Rerender "1";
               PostsSettles (Rejected (ErrorObject "Failed to fetch"))]
              eq_refl) as (Hu & Hp & _).
  split; assumption.
Defined.

Lemma urls_differ (id : string) : userUrl id <> postsUrl id.
Proof. unfold userUrl, postsUrl. simpl. intros H. discriminate H. Qed.

(** C4, as stated, fails for the empty identifier: the effect returns
    before calling either loader, and no request is issued. *)
Lemma empty_id_issues_no_request :
  requests (mount "") = []
  /\ requests (mount "") <> [userUrl ""; postsUrl ""].
Proof. split; [reflexivity | discriminate]. Qed.

(** C4, amended.  For any non-empty identifier, mounting issues exactly
    one request to the user endpoint and exactly one to the posts
    endpoint, and while the component stays mounted with that identifier
    no response and no re-render adds a request. *)
Theorem one_request_per_resource (id : string) (events : list Event) :
  id <> "" ->
  forallb (keeps_id id) events = true ->
  requests (mount id) = [userUrl id; postsUrl id]
  /\ requests (run (mount id) events) = [userUrl id; postsUrl id]
  /\ count_occ string_dec (requests (run (mount id) events)) (userUrl id) = 1
  /\ count_occ string_dec (requests (run (mount id) events)) (postsUrl id) = 1.
Proof.
  intros Hid Hall.
  apply String.eqb_neq in Hid.
  destruct (lifetime id events Hall) as (_ & Hreq & _).
  rewrite Hid in Hreq. rewrite Hreq.
  split; [unfold mount, effect; rewrite Hid; reflexivity |].
  split; [reflexivity |].
  pose proof (urls_differ id) as Hne.
  split.
  - rewrite count_occ_cons_eq by reflexivity.
    rewrite count_occ_cons_neq by (intros H; apply Hne; symmetry; exact H).
    reflexivity.
  - rewrite count_occ_cons_neq by exact Hne.
    rewrite count_occ_cons_eq by reflexivity.
    reflexivity.
Qed.

Lemma one_request_per_resource_witness :
  requests (run (mount "7")
              [Rerender "7"; UserSettles (respond 404 JNull); Rerender "7";
               PostsSettles (respond 200 (JArr [])); Rerender "7"])
  = ["https://jsonplaceholder.typicode.com/users/7";
     "https://jsonplaceholder.typicode.com/posts?userId=7"].
Proof.
  destruct (one_request_per_resource "7"
              [Rerender "7"; UserSettles (respond 404 JNull); Rerender "7";
               PostsSettles (respond 200 (JArr [])); Rerender "7"])
    as (_ & H & _).
  - discriminate.
  - reflexivity.
  - exact H.
Defined.

(** C9.  When a loader that is waiting for its response fails, the
    payload cell of its resource still holds its initial value ([null]
    for the user, the empty array for the posts): the failure changes
    only that resource's error message and loading flag. *)
Theorem failure_keeps_payload (id : string) (events : list Event)
    (fetched : Settled Response) (t : Thrown) :
  forallb (keeps_id id) events = true ->
  let w := run (mount id) events in
  (0 < awaitingUser w -> throws "Failed to fetch user" fetched t ->
   let s' := state (step w (UserSettles fetched)) in
   user s' = JNull
   /\ s' = {| user := user (state w); posts := posts (state w);
              loadingUser := false; loadingPosts := loadingPosts (state w);
              errorUser := Some (caught_message t);
              errorPosts := errorPosts (state w) |})
  /\
  (0 < awaitingPosts w -> throws "Failed to fetch posts" fetched t ->
   let s' := state (step w (PostsSettles fetched)) in
   posts s' = JArr []
   /\ s' = {| user := user (state w); posts := posts (state w);
              loadingUser := loadingUser (state w); loadingPosts := false;
              errorUser := errorUser (state w);
              errorPosts := Some (caught_message t) |}).
Proof.
  intros Hall w. destruct (lifetime id events Hall) as (_ & _ & Hu & Hp).
  fold w in Hu, Hp.
  split; intros Hwait Hthrows; apply throws_outcome in Hthrows; simpl.
  - destruct (awaitingUser w) as [| n]; [lia |]. simpl.
    unfold after. rewrite fetchUser_run. simpl. rewrite Hthrows.
    destruct Hu as [[_ (_ & _ & Hv)] | [Hz _]]; [| discriminate].
    split; [exact Hv | reflexivity].
  - destruct (awaitingPosts w) as [| n]; [lia |]. simpl.
    unfold after. rewrite fetchPosts_run. simpl. rewrite Hthrows.
    destruct Hp as [[_ (_ & _ & Hv)] | [Hz _]]; [| discriminate].
    split; [exact Hv | reflexivity].
Qed.

Lemma failure_keeps_payload_witness :
  user (state (run (mount "1")
                 [PostsSettles (respond 200 (JArr [sample_post]));
                  UserSettles (respond 404 (sample_user "1" "2"))]))
    = JNull
  /\ posts (state (run (mount "1")
                     [PostsSettles (Rejected (PlainValue JNull))]))
    = JArr [].
Proof.
  split.
  - destruct (failure_keeps_payload "1"
                [PostsSettles (respond 200 (JArr [sample_post]))]
                (respond 404 (sample_user "1" "2"))
                (ErrorObject "Failed to fetch user") eq_refl) as [H _].
    destruct H as [H _].
    + simpl. lia.
    + apply throws_status. reflexivity.
    + exact H.
  - destruct (failure_keeps_payload "1" []
                (Rejected (PlainValue JNull))
                (PlainValue JNull) eq_refl) as [_ H].
    destruct H as [H _].
    + simpl. lia.
    + apply throws_transport.
    + exact H.
Defined.

(** ** What the view shows *)

(** The renderer is partial on data that does not have the declared
    shape: a user object without [address], or posts that are not an
    array, make it throw. *)
Example render_throws_on_misshapen_data :
  render (after (fetchUser (respond 200 (JObj []))) initial) = TypeError
  /\ render_posts (after (fetchPosts (respond 200 (JObj []))) initial)
     = TypeError.
Proof. split; reflexivity. Qed.

Example render_sample_page :
  render (state (run (mount "1")
                   [PostsSettles (respond 200 (JArr [sample_post]));
                    UserSettles (respond 200 (sample_user "" "81.1496"))]))
  = Ok (Page sample_profile (MapPlaceholder "Map data not available")
          (PostsGrid
             [{| key := JNum 1;
                 link_href := {| prefix := "/posts/"; hole := JNum 1 |};
                 link_text := JStr "T1"; card_body := JStr "B1" |}])).
Proof. reflexivity. Qed.

(** C1.  The view after a failure whose [Error] has the empty message:
    the catch block stores the empty string, the tests on lines 98 and
    137 take it for falsy, and the failed user fetch is followed by the
    page with a blank profile instead of an error message; likewise a
    failed posts fetch is followed by the grid. *)
Lemma empty_message_is_not_shown :
  let s1 := state (run (mount "1") [UserSettles (Rejected (ErrorObject ""))]) in
  let s2 := state (run (mount "1")
                     [UserSettles (respond 200 (sample_user "1" "2"));
                      PostsSettles (Rejected (ErrorObject ""))]) in
  (user_failed s1
   /\ render s1 = Ok (Page blank_profile
                          (MapPlaceholder "Map data not available")
                          (PostsSpinner "Loading posts...")))
  /\ (posts_failed s2 /\ section_of (render s2) = Some (PostsGrid [])).
Proof.
  split; (split; [| reflexivity]).
  - repeat split; try reflexivity. exists "". reflexivity.
  - repeat split; try reflexivity. exists "". reflexivity.
Qed.

(** The decision table for non-empty messages.  In every state: while
    the user fetch is pending, the view is only the full-page spinner
    labelled "Loading user..."; if the user fetch failed with a
    non-empty message, the view is only that message, with no profile,
    map or posts; and when the user has loaded, a posts failure with a
    non-empty message puts that message in place of the posts section
    while the profile and map are rendered as they otherwise are. *)
Theorem render_decision (s : State) :
  (loadingUser s = true -> render s = Ok (Spinner "Loading user..."))
  /\ (forall m,
        loadingUser s = false -> errorUser s = Some m -> m <> "" ->
        render s = Ok (ErrorMessage m)
        /\ profile_of (render s) = None /\ map_of (render s) = None
        /\ section_of (render s) = None)
  /\ (forall m p mp,
        user_success s ->
        render_profile (user s) = Ok p -> render_map (user s) = Ok mp ->
        loadingPosts s = false -> errorPosts s = Some m -> m <> "" ->
        render s = Ok (Page p mp (PostsError m))).
Proof.
  split; [apply render_loading | split].
  - intros m Hl He Hm. rewrite (render_user_error s m Hl He Hm).
    repeat split; reflexivity.
  - intros m p mp [Hl He] Hp Hmp Hlp Hep Hm.
    apply render_page; try assumption.
    + rewrite He. reflexivity.
    + apply render_posts_error; assumption.
Qed.

Lemma render_decision_witness :
  render initial = Ok (Spinner "Loading user...")
  /\ render (state (run (mount "1") [UserSettles (respond 404 JNull)]))
     = Ok (ErrorMessage "Failed to fetch user")
  /\ section_of
       (render (state (run (mount "1")
                         [UserSettles (respond 200 (sample_user "1" "2"));
                          PostsSettles (respond 503 JNull)])))
     = Some (PostsError "Failed to fetch posts").
Proof.
  split; [| split].
  - destruct (render_decision initial) as [H _]. apply H. reflexivity.
  - destruct (render_decision
                (state (run (mount "1") [UserSettles (respond 404 JNull)])))
      as (_ & H & _).
    destruct (H "Failed to fetch user") as [Hr _];
      [reflexivity | reflexivity | discriminate | exact Hr].
  - destruct (render_decision
                (state (run (mount "1")
                          [UserSettles (respond 200 (sample_user "1" "2"));
                           PostsSettles (respond 503 JNull)])))
      as (_ & _ & H).
    destruct (conforms_User_renders (sample_user "1" "2") eq_refl)
      as [[p Hp] [mp Hmp]].
    rewrite (H "Failed to fetch posts" p mp);
      [reflexivity | split; reflexivity | exact Hp | exact Hmp
       | reflexivity | reflexivity | discriminate].
Defined.

Lemma render_map_cases (u : JsValue) (lat lng : JsValue) :
  opt_chain u [f_address; f_geo; f_lat] = Ok lat ->
  opt_chain u [f_address; f_geo; f_lng] = Ok lng ->
  render_map u =
  Ok (if (truthy lat && truthy lng)%bool then UserMap
      else MapPlaceholder "Map data not available").
Proof.
  intros Hlat Hlng. unfold render_map. rewrite Hlat. simpl.
  destruct (truthy lat); [| reflexivity].
  rewrite Hlng. reflexivity.
Qed.

Lemma truthy_optional_string (v : JsValue) :
  optional_string v = true -> (truthy v = true <-> nonempty_string v).
Proof.
  unfold nonempty_string.
  destruct v as [| | b | n | a | items | fs]; try discriminate; intros _; simpl.
  - split; [discriminate | intros (a & H & _); discriminate].
  - split; [discriminate | intros (a & H & _); discriminate].
  - destruct (String.eqb_spec a ""); simpl; split.
    + discriminate.
    + intros (a' & H & Hne). injection H as <-. contradiction.
    + intros _. exists a. split; [reflexivity | assumption].
    + reflexivity.
Qed.

(** C5.  In the page view, with the user's geo latitude and longitude
    each a string or absent, the map component is rendered exactly when
    both are present and non-empty; otherwise the map region is the text
    "Map data not available".  In particular [lat = ""] and [lng = ""]
    give the placeholder. *)
Theorem map_iff_geo (s : State) (p : Profile) (mp : MapRegion)
    (ps : PostsSection) (lat lng : JsValue) :
  render s = Ok (Page p mp ps) ->
  opt_chain (user s) [f_address; f_geo; f_lat] = Ok lat ->
  opt_chain (user s) [f_address; f_geo; f_lng] = Ok lng ->
  optional_string lat = true -> optional_string lng = true ->
  (mp = UserMap <-> nonempty_string lat /\ nonempty_string lng)
  /\ (mp <> UserMap -> mp = MapPlaceholder "Map data not available")
  /\ (lat = JStr "" -> lng = JStr "" ->
      mp = MapPlaceholder "Map data not available").
Proof.
  intros Hr Hlat Hlng Tlat Tlng.
  apply render_page_inv in Hr. destruct Hr as (_ & _ & _ & Hmap & _).
  rewrite (render_map_cases _ _ _ Hlat Hlng) in Hmap.
  injection Hmap as <-.
  pose proof (truthy_optional_string lat Tlat) as Hla.
  pose proof (truthy_optional_string lng Tlng) as Hlo.
  split; [| split].
  - destruct (truthy lat), (truthy lng); simpl; split;
      try discriminate; try (intros _; split; [apply Hla | apply Hlo]; reflexivity);
      try reflexivity; intros [Ha Ho].
    + apply Hlo in Ho. discriminate.
    + apply Hla in Ha. discriminate.
    + apply Hla in Ha. discriminate.
  - destruct (truthy lat && truthy lng)%bool; [congruence | reflexivity].
  - intros -> ->. reflexivity.
Qed.

Lemma map_iff_geo_witness :
  (MapPlaceholder "Map data not available" = UserMap
   <-> nonempty_string (JStr "") /\ nonempty_string (JStr ""))
  /\ (UserMap = UserMap
      <-> nonempty_string (JStr "-37.3159") /\ nonempty_string (JStr "81.1496")).
Proof.
  split.
  - exact (proj1 (map_iff_geo
             (after (fetchUser (respond 200 (sample_user "" ""))) initial)
             sample_profile (MapPlaceholder "Map data not available")
             (PostsSpinner "Loading posts...") (JStr "") (JStr "")
             eq_refl eq_refl eq_refl eq_refl eq_refl)).
  - exact (proj1 (map_iff_geo
             (after (fetchUser
                       (respond 200 (sample_user "-37.3159" "81.1496")))
                    initial)
             sample_profile UserMap
             (PostsSpinner "Loading posts...")
             (JStr "-37.3159") (JStr "81.1496")
             eq_refl eq_refl eq_refl eq_refl eq_refl)).
Defined.

(** ** Independence of the two resources *)

(** C7, as stated, fails in one direction: with the same posts already
    loaded, the posts section is rendered when the user fetch succeeds
    and is not rendered at all when the user fetch fails. *)
Lemma user_failure_hides_posts :
  let s0 := state (run (mount "1")
                     [PostsSettles (respond 200 (JArr [sample_post]))]) in
  let s_ok := after (fetchUser (respond 200 (sample_user "1" "2"))) s0 in
  let s_failed := after (fetchUser (respond 404 JNull)) s0 in
  (posts s_failed = posts s_ok
   /\ loadingPosts s_failed = loadingPosts s_ok
   /\ errorPosts s_failed = errorPosts s_ok)
  /\ section_of (render s_ok)
     = Some (PostsGrid
               [{| key := JNum 1;
                   link_href := {| prefix := "/posts/"; hole := JNum 1 |};
                   link_text := JStr "T1"; card_body := JStr "B1" |}])
  /\ section_of (render s_failed) = None
  /\ section_of (render s_failed) <> section_of (render s_ok).
Proof.
  repeat split; discriminate.
Qed.

(** C7, amended.  The two loaders are independent in state: neither
    changes the other resource's cells, and they commute.  A failing
    posts fetch does not change how the profile and the map are
    rendered.  A user fetch that is pending, or that fails with a
    non-empty message, replaces the whole page, posts section included.
    In particular, when the user fetch has succeeded with a user record
    or [null] and the posts fetch is still pending, the profile and the
    map are rendered and the posts section is its own spinner labelled
    "Loading posts...". *)
Theorem loaders_independent (s : State) (fetchedUser fetchedPosts : Settled Response) :
  (posts (after (fetchUser fetchedUser) s) = posts s
   /\ loadingPosts (after (fetchUser fetchedUser) s) = loadingPosts s
   /\ errorPosts (after (fetchUser fetchedUser) s) = errorPosts s)
  /\ (user (after (fetchPosts fetchedPosts) s) = user s
      /\ loadingUser (after (fetchPosts fetchedPosts) s) = loadingUser s
      /\ errorUser (after (fetchPosts fetchedPosts) s) = errorUser s)
  /\ after (fetchPosts fetchedPosts) (after (fetchUser fetchedUser) s)
     = after (fetchUser fetchedUser) (after (fetchPosts fetchedPosts) s)
  /\ (forall t,
        posts_pending s -> throws "Failed to fetch posts" fetchedPosts t ->
        profile_of (render (after (fetchPosts fetchedPosts) s))
          = profile_of (render s)
        /\ map_of (render (after (fetchPosts fetchedPosts) s))
           = map_of (render s))
  /\ (user_success s -> conforms_User_or_null (user s) = true ->
      loadingPosts s = true ->
      exists p mp,
        render_profile (user s) = Ok p /\ render_map (user s) = Ok mp
        /\ render s = Ok (Page p mp (PostsSpinner "Loading posts...")))
  /\ (loadingUser s = true ->
      render s = Ok (Spinner "Loading user...")
      /\ profile_of (render s) = None /\ map_of (render s) = None
      /\ section_of (render s) = None)
  /\ (forall t,
        throws "Failed to fetch user" fetchedUser t ->
        caught_message t <> "" ->
        render (after (fetchUser fetchedUser) s)
          = Ok (ErrorMessage (caught_message t))
        /\ profile_of (render (after (fetchUser fetchedUser) s)) = None
        /\ map_of (render (after (fetchUser fetchedUser) s)) = None
        /\ section_of (render (after (fetchUser fetchedUser) s)) = None).
Proof.
  split; [| split; [| split; [| split; [| split; [| split]]]]].
  - loader_cases fetchedUser; repeat split.
  - loader_cases fetchedPosts; repeat split.
  - unfold after. rewrite !fetchUser_run, !fetchPosts_run. simpl.
    destruct (outcome _ fetchedUser), (outcome _ fetchedPosts); reflexivity.
  - intros t (Hl & He & Hv) Hthrows. apply throws_outcome in Hthrows.
    unfold after. rewrite fetchPosts_run. simpl. rewrite Hthrows.
    unfold render, render_posts. simpl. rewrite Hl, Hv.
    destruct (loadingUser s); [split; reflexivity |].
    destruct (truthy_msg (errorUser s)); [split; reflexivity |].
    destruct (render_profile (user s)); [| split; reflexivity].
    destruct (render_map (user s)); [| split; reflexivity].
    simpl. destruct (String.eqb (caught_message t) ""); split; reflexivity.
  - intros [Hl He] Hconf Hlp.
    assert (exists p mp, render_profile (user s) = Ok p
                         /\ render_map (user s) = Ok mp) as (p & mp & Hp & Hmp).
    { destruct (user s) eqn:Hu; try discriminate.
      - exists blank_profile, (MapPlaceholder "Map data not available").
        split; reflexivity.
      - destruct (conforms_User_renders _ Hconf) as [[p Hp] [mp Hmp]].
        exists p, mp. split; assumption. }
    exists p, mp. split; [exact Hp | split; [exact Hmp |]].
    apply render_page; try assumption.
    + rewrite He. reflexivity.
    + unfold render_posts. rewrite Hlp. reflexivity.
  - intros Hl. rewrite (render_loading s Hl). repeat split.
  - intros t Hthrows Hm. apply throws_outcome in Hthrows.
    assert (Hr : render (after (fetchUser fetchedUser) s)
                 = Ok (ErrorMessage (caught_message t))).
    { apply render_user_error; [| | exact Hm];
        unfold after; rewrite fetchUser_run; simpl; rewrite Hthrows;
        reflexivity. }
    rewrite Hr. repeat split.
Qed.

Lemma loaders_independent_witness :
  let s := state (run (mount "1")
                    [UserSettles (respond 200 (sample_user "1" "2"))]) in
  render s = Ok (Page sample_profile UserMap (PostsSpinner "Loading posts..."))
  /\ profile_of (render (after (fetchPosts (respond 500 JNull)) s))
     = Some sample_profile
  /\ section_of (render initial) = None
  /\ section_of (render (after (fetchUser (respond 404 JNull)) initial)) = None.
Proof.
  intros s.
  destruct (loaders_independent s
              (Rejected (ErrorObject "unused")) (respond 500 JNull))
    as (_ & _ & _ & Hposts & Hready & _).
  destruct (loaders_independent initial (respond 404 JNull) (respond 500 JNull))
    as (_ & _ & _ & _ & _ & Hpending & Hfailed).
  split; [| split; [| split]].
  - destruct Hready as (p & mp & Hp & Hmp & Hr).
    + split; reflexivity.
    + reflexivity.
    + reflexivity.
    + rewrite Hr. simpl in Hp, Hmp.
      injection Hp as <-. injection Hmp as <-. reflexivity.
  - destruct (Hposts (ErrorObject "Failed to fetch posts")) as [Hprofile _].
    + repeat split; reflexivity.
    + apply throws_status. reflexivity.
    + rewrite Hprofile. reflexivity.
  - destruct Hpending as (_ & _ & _ & H); [reflexivity | exact H].
  - destruct (Hfailed (ErrorObject "Failed to fetch user"))
      as (_ & _ & _ & H).
    + apply throws_status. reflexivity.
    + discriminate.
    + exact H.
Defined.

(** ** Empty and null payloads *)

(** C8.  When the pending posts fetch succeeds with an empty array, the
    posts resource is in the success phase and not the failed one, and
    the posts section of the page is a grid with no card: neither an
    error message nor a spinner. *)
Theorem empty_posts_is_success (s : State) (res : Response) :
  ok res = true -> json res = Resolved (JArr []) -> posts_pending s ->
  let s' := after (fetchPosts (Resolved res)) s in
  posts_success s' /\ ~ posts_failed s'
  /\ posts s' = JArr []
  /\ render_posts s' = Ok (PostsGrid [])
  /\ (forall p mp ps, render s' = Ok (Page p mp ps) -> ps = PostsGrid [])
  /\ (forall p mp,
        user_success s ->
        render_profile (user s) = Ok p -> render_map (user s) = Ok mp ->
        render s' = Ok (Page p mp (PostsGrid []))).
Proof.
  intros Hok Hjson (Hl & He & Hv) s'.
  assert (Hs' : s' = {| user := user s; posts := JArr [];
                        loadingUser := loadingUser s; loadingPosts := false;
                        errorUser := errorUser s; errorPosts := None |}).
  { unfold s', after. rewrite fetchPosts_run. simpl.
    rewrite Hok, Hjson, He. reflexivity. }
  assert (Hsuccess : posts_success s').
  { rewrite Hs'. split; reflexivity. }
  assert (Hgrid : render_posts s' = Ok (PostsGrid [])).
  { rewrite Hs'. reflexivity. }
  split; [exact Hsuccess |].
  split; [intros Hfailed; apply (posts_phases_exclusive s'); auto |].
  split; [rewrite Hs'; reflexivity |].
  split; [exact Hgrid |].
  split.
  - intros p mp ps Hr. apply render_page_inv in Hr.
    destruct Hr as (_ & _ & _ & _ & Hps). congruence.
  - intros p mp [Hlu Heu] Hp Hmp.
    rewrite Hs'. apply render_page; simpl; try assumption; try reflexivity.
    rewrite Heu. reflexivity.
Qed.

Lemma empty_posts_is_success_witness :
  render (state (run (mount "1")
                   [UserSettles (respond 200 (sample_user "1" "2"));
                    PostsSettles (respond 200 (JArr []))]))
  = Ok (Page sample_profile UserMap (PostsGrid [])).
Proof.
  destruct (empty_posts_is_success
              (state (run (mount "1")
                        [UserSettles (respond 200 (sample_user "1" "2"))]))
              {| status := 200; json := Resolved (JArr []) |})
    as (_ & _ & _ & _ & _ & H).
  - reflexivity.
  - reflexivity.
  - repeat split; reflexivity.
  - apply (H sample_profile UserMap); [split |..]; reflexivity.
Defined.

Lemma opt_chain_nullish (v : JsValue) (path : list Field) :
  nullish v = true -> opt_chain v path = Ok JUndefined.
Proof. intros H. unfold opt_chain. rewrite H. reflexivity. Qed.

(** C10.  A user fetch that completes without error on a body that
    parses to [null] leaves the resource in the success phase with a
    [null] payload.  In any such state the page is rendered without an
    exception from the user section: every optional chain on the user
    yields [undefined], the profile card is blank, the map region is the
    text "Map data not available", and the page is complete as soon as
    the posts section renders, which it does while the posts are pending
    and whenever the posts cell holds an array of posts. *)
Theorem null_user_renders (s : State) :
  user_success s -> user s = JNull ->
  (forall path, opt_chain (user s) path = Ok JUndefined)
  /\ render_profile (user s) = Ok blank_profile
  /\ render_map (user s) = Ok (MapPlaceholder "Map data not available")
  /\ (forall ps, render_posts s = Ok ps ->
      render s = Ok (Page blank_profile
                          (MapPlaceholder "Map data not available") ps))
  /\ (loadingPosts s = true \/ conforms_Posts (posts s) = true ->
      exists ps,
        render s = Ok (Page blank_profile
                            (MapPlaceholder "Map data not available") ps))
  /\ (forall s0 res,
        ok res = true -> json res = Resolved JNull -> errorUser s0 = None ->
        user_success (after (fetchUser (Resolved res)) s0)
        /\ user (after (fetchUser (Resolved res)) s0) = JNull).
Proof.
  intros [Hl He] Hu.
  assert (Hpage : forall ps, render_posts s = Ok ps ->
            render s = Ok (Page blank_profile
                                (MapPlaceholder "Map data not available") ps)).
  { intros ps Hps. apply render_page; try assumption.
    - rewrite He. reflexivity.
    - rewrite Hu. reflexivity.
    - rewrite Hu. reflexivity. }
  split; [intros path; apply opt_chain_nullish; rewrite Hu; reflexivity |].
  split; [rewrite Hu; reflexivity |].
  split; [rewrite Hu; reflexivity |].
  split; [exact Hpage |].
  split.
  - intros Hposts.
    assert (exists ps, render_posts s = Ok ps) as [ps Hps].
    { unfold render_posts. destruct (loadingPosts s) eqn:Hlp.
      - eexists; reflexivity.
      - destruct (truthy_msg (errorPosts s)); [eexists; reflexivity |].
        destruct Hposts as [Hposts | Hposts]; [discriminate |].
        destruct (posts s) as [| | | | | items |]; try discriminate.
        destruct (conforms_Posts_render items Hposts) as [cards Hcards].
        simpl. rewrite Hcards. eexists; reflexivity. }
    exists ps. apply Hpage. exact Hps.
  - intros s0 res Hok Hjson He0. unfold after. rewrite fetchUser_run. simpl.
    rewrite Hok, Hjson. simpl. split; [split; [reflexivity | exact He0] | reflexivity].
Qed.

Lemma null_user_renders_witness :
  render (state (run (mount "1") [UserSettles (respond 200 JNull)]))
  = Ok (Page blank_profile (MapPlaceholder "Map data not available")
          (PostsSpinner "Loading posts...")).
Proof.
  destruct (null_user_renders
              (state (run (mount "1") [UserSettles (respond 200 JNull)])))
    as (_ & _ & _ & H & _).
  - split; reflexivity.
  - reflexivity.
  - apply H. reflexivity.
Defined.

(** * Further properties of the page *)

(** ** Which data makes the page throw *)

Lemma render_card_card_of (post : JsValue) (card : PostCard) :
  render_card post = Ok card -> card_of post card.
Proof.
  unfold render_card, card_of, as_key, template.
  destruct (get post f_id) as [id |]; [| discriminate]. simpl.
  destruct (stringifies id); [| discriminate]. simpl.
  destruct (get post f_title) as [t |]; [| discriminate]. simpl.
  destruct (get post f_body) as [b |]; [| discriminate]. simpl.
  intros H. injection H as <-. simpl. repeat split; reflexivity.
Qed.

Lemma map_result_card_of (items : list JsValue) :
  forall cards,
    map_result render_card items = Ok cards -> Forall2 card_of items cards.
Proof.
  induction items as [| post items IH]; simpl; intros cards H.
  - injection H as <-. constructor.
  - destruct (render_card post) as [card |] eqn:Hcard; [| discriminate].
    simpl in H.
    destruct (map_result render_card items) as [rest |]; [| discriminate].
    simpl in H. injection H as <-.
    constructor; [apply render_card_card_of, Hcard | apply IH; reflexivity].
Qed.

(** X1.  When the posts section is a grid, it holds exactly one card per
    element of the posts array, in the order of the array, and each card
    is built from its post: the key and the link target from [post.id],
    the link text from [post.title], the text from [post.body]. *)
Theorem grid_one_card_per_post (s : State) (cards : list PostCard) :
  render_posts s = Ok (PostsGrid cards) ->
  exists items,
    posts s = JArr items
    /\ length cards = length items
    /\ Forall2 card_of items cards.
Proof.
  unfold render_posts.
  destruct (loadingPosts s); [discriminate |].
  destruct (truthy_msg (errorPosts s)); [discriminate |].
  destruct (posts s) as [| | | | | items |]; try discriminate. simpl.
  destruct (map_result render_card items) as [cards' |] eqn:Hcards;
    [| discriminate].
  simpl. intros Heq. injection Heq as <-.
  pose proof (map_result_card_of items cards' Hcards) as Hall.
  exists items. split; [reflexivity |].
  split; [symmetry; apply (Forall2_length Hall) | exact Hall].
Qed.

Lemma grid_one_card_per_post_witness :
  let card :=
    {| key := JNum 1;
       link_href := {| prefix := "/posts/"; hole := JNum 1 |};
       link_text := JStr "T1"; card_body := JStr "B1" |} in
  exists items,
    posts (after (fetchPosts (respond 200 (JArr [sample_post; sample_post])))
                 initial) = JArr items
    /\ length [card; card] = length items
    /\ Forall2 card_of items [card; card].
Proof.
  intros card.
  apply (grid_one_card_per_post
           (after (fetchPosts (respond 200 (JArr [sample_post; sample_post])))
                  initial)
           [card; card]).
  reflexivity.
Defined.

Lemma render_card_renderable (post : JsValue) :
  if renderable_post post
  then exists card, render_card post = Ok card
  else render_card post = TypeError.
Proof.
  unfold renderable_post, render_card, as_key, template.
  destruct post as [| | b | n | a | items | fs]; simpl; try reflexivity;
    try (eexists; reflexivity).
  destruct (stringifies (lookup "id" fs)); simpl;
    [eexists; reflexivity | reflexivity].
Qed.

Lemma map_result_renderable (items : list JsValue) :
  if forallb renderable_post items
  then exists cards, map_result render_card items = Ok cards
  else map_result render_card items = TypeError.
Proof.
  induction items as [| post items IH]; simpl.
  - eexists; reflexivity.
  - pose proof (render_card_renderable post) as Hpost.
    destruct (renderable_post post); simpl.
    + destruct Hpost as [card Hcard]. rewrite Hcard. simpl.
      destruct (forallb renderable_post items).
      * destruct IH as [cards Hcards]. rewrite Hcards.
        eexists; reflexivity.
      * rewrite IH. reflexivity.
    + rewrite Hpost. reflexivity.
Qed.

Lemma renderable_user_renders (u : JsValue) :
  renderable_user u = true ->
  exists p m, render_profile u = Ok p /\ render_map u = Ok m.
Proof.
  unfold renderable_user, render_profile, render_map, opt_chain, template.
  destruct u as [| | b | n | a | items | fs]; simpl; try discriminate;
    try (intros _; do 2 eexists; split; reflexivity).
  destruct (stringifies (lookup "email" fs)); simpl; [| discriminate].
  destruct (stringifies (lookup "website" fs)); simpl; [| discriminate].
  destruct (lookup "address" fs) as [| | b | n | a | items | afs];
    simpl; try discriminate.
  destruct (lookup "geo" afs) as [| | b | n | a | items | gfs];
    simpl; try discriminate; intros _;
    try (do 2 eexists; split; reflexivity).
  destruct (truthy (lookup "lat" gfs)); do 2 eexists; split; reflexivity.
Qed.

Lemma unrenderable_user_throws (u : JsValue) :
  renderable_user u = false ->
  (p <- render_profile u ;; m <- render_map u ;; Ok (p, m))%result = TypeError.
Proof.
  unfold renderable_user, render_profile, render_map, opt_chain, template.
  destruct u as [| | b | n | a | items | fs]; simpl; try discriminate;
    try reflexivity.
  destruct (stringifies (lookup "email" fs)); simpl; [| reflexivity].
  destruct (stringifies (lookup "website" fs)); simpl; [| reflexivity].
  destruct (lookup "address" fs) as [| | b | n | a | items | afs];
    simpl; try discriminate; try reflexivity.
  destruct (lookup "geo" afs) as [| | b | n | a | items | gfs];
    simpl; try discriminate; reflexivity.
Qed.

Lemma render_posts_throws (s : State) :
  render_posts s = TypeError
  <-> loadingPosts s = false /\ truthy_msg (errorPosts s) = None
      /\ renderable_posts (posts s) = false.
Proof.
  unfold render_posts, renderable_posts.
  destruct (loadingPosts s).
  { split; [discriminate | intros (H & _); discriminate]. }
  destruct (truthy_msg (errorPosts s)).
  { split; [discriminate | intros (_ & H & _); discriminate]. }
  destruct (posts s) as [| | | | | items |]; simpl;
    try (split; [intros _; repeat split | reflexivity]).
  pose proof (map_result_renderable items) as H.
  destruct (forallb renderable_post items); simpl.
  - destruct H as (cards & Hcards). rewrite Hcards. simpl.
    split; [discriminate | intros (_ & _ & H); discriminate].
  - rewrite H. split; [intros _; repeat split | reflexivity].
Qed.

Lemma render_of_renderable (s : State) :
  renderable_user (user s) = true ->
  renderable_posts (posts s) = true ->
  exists view, render s = Ok view.
Proof.
  intros Hu Hp. unfold render.
  destruct (loadingUser s); [eexists; reflexivity |].
  destruct (truthy_msg (errorUser s)); [eexists; reflexivity |].
  destruct (renderable_user_renders _ Hu) as (p & m & Hprofile & Hmap).
  rewrite Hprofile, Hmap. simpl.
  destruct (render_posts s) as [ps |] eqn:Hps; simpl; [eexists; reflexivity |].
  apply render_posts_throws in Hps. destruct Hps as (_ & _ & Hps). congruence.
Qed.

(** X2.  Evaluating the component function throws on exactly these
    states: the user has loaded with no error message to show, and
    either the user is not nullish and lacks [address] or [address.geo]
    or has an [email] or [website] that does not coerce to a string, or
    the posts have loaded with no error message to show and are not an
    array of non-nullish elements whose [id] coerces to a string.  In
    particular it never throws while the user is loading or a user error
    is shown.  (What React does afterwards with the returned elements is
    not part of the component function.) *)
Theorem render_throws_iff (s : State) :
  render s = TypeError
  <-> loadingUser s = false /\ truthy_msg (errorUser s) = None
      /\ (renderable_user (user s) = false
          \/ (loadingPosts s = false /\ truthy_msg (errorPosts s) = None
              /\ renderable_posts (posts s) = false)).
Proof.
  unfold render.
  destruct (loadingUser s).
  { split; [discriminate | intros (H & _); discriminate]. }
  destruct (truthy_msg (errorUser s)).
  { split; [discriminate | intros (_ & H & _); discriminate]. }
  destruct (renderable_user (user s)) eqn:Hu.
  - destruct (renderable_user_renders _ Hu) as (p & m & Hp & Hm).
    rewrite Hp, Hm. simpl.
    destruct (render_posts s) as [ps |] eqn:Hps; simpl.
    + split; [discriminate |].
      intros (_ & _ & [H | H]); [discriminate |].
      apply render_posts_throws in H. congruence.
    + apply render_posts_throws in Hps.
      split; [intros _; repeat split; right; exact Hps | reflexivity].
  - pose proof (unrenderable_user_throws _ Hu) as Ht.
    split; [intros _; repeat split; left; reflexivity |].
    intros _.
    destruct (render_profile (user s)) as [p |]; [| reflexivity].
    destruct (render_map (user s)) as [m |]; [| reflexivity].
    discriminate Ht.
Qed.

(** A body whose [email] has an own [toString] cannot be coerced, and
    the component throws on it as it does on a missing [address]. *)
Example render_throws_on_uncoercible_email :
  render (after (fetchUser
                   (respond 200
                      (JObj [("email", JObj [("toString", JNum 1)]);
                             ("address", JObj [("geo", JObj [])])])))
                initial)
  = TypeError
  /\ render_posts
       (after (fetchPosts
                 (respond 200 (JArr [JObj [("id", JArr [JObj [("toString", JNull)]])]])))
              initial)
     = TypeError.
Proof. split; reflexivity. Qed.

(** ** Data of the declared type never makes the page throw *)

Lemma body_of_outcome (failure : string) (fetched : Settled Response)
    (data : JsValue) :
  outcome failure fetched = Resolved data <-> body_of fetched = Some data.
Proof.
  unfold outcome, body_of.
  destruct fetched as [res | t]; [| split; discriminate].
  destruct (ok res); [| split; discriminate].
  destruct (json res); split; congruence.
Qed.

Lemma conforms_User_renderable (u : JsValue) :
  conforms_User_or_null u = true -> renderable_user u = true.
Proof.
  destruct u as [| | | | | | fs]; try discriminate; [reflexivity |].
  unfold conforms_User_or_null, conforms_User, renderable_user. simpl.
  intros H. repeat (apply andb_prop in H; destruct H as [H ?]).
  rewrite !is_string_stringifies by assumption. simpl.
  destruct (lookup "address" fs) as [| | | | | | afs]; try discriminate.
  simpl in *.
  match goal with
  | Ha : (_ && conforms_Geo _)%bool = true |- _ =>
      apply andb_prop in Ha; destruct Ha as [_ Hg]
  end.
  destruct (lookup "geo" afs); try discriminate. reflexivity.
Qed.

Lemma conforms_Post_renderable (post : JsValue) :
  conforms_Post post = true -> renderable_post post = true.
Proof.
  destruct post as [| | | | | | fs]; try discriminate.
  unfold conforms_Post, renderable_post. simpl. intros H.
  apply andb_prop in H. destruct H as [H _].
  apply andb_prop in H. destruct H as [H _].
  apply is_number_stringifies, H.
Qed.

Lemma conforms_Posts_renderable (v : JsValue) :
  conforms_Posts v = true -> renderable_posts v = true.
Proof.
  destruct v as [| | | | | items |]; try discriminate. simpl.
  induction items as [| post items IH]; simpl; [reflexivity |].
  intros H. apply andb_prop in H. destruct H as [Hpost Hrest].
  rewrite (conforms_Post_renderable post Hpost). simpl. apply IH, Hrest.
Qed.

Lemma step_keeps_types (w : World) (e : Event) :
  honours_contract e = true ->
  conforms_User_or_null (user (state w)) = true
  /\ conforms_Posts (posts (state w)) = true ->
  conforms_User_or_null (user (state (step w e))) = true
  /\ conforms_Posts (posts (state (step w e))) = true.
Proof.
  intros He [Hu Hp].
  destruct e as [id | fetched | fetched]; simpl in *.
  - destruct (String.eqb id (deps w)); [auto |].
    unfold effect. destruct (String.eqb id ""); simpl; auto.
  - destruct (awaitingUser w); [auto |]. simpl.
    unfold after. rewrite fetchUser_run. simpl.
    destruct (outcome _ fetched) as [data |] eqn:Ho; simpl; [| auto].
    apply body_of_outcome in Ho. rewrite Ho in He. auto.
  - destruct (awaitingPosts w); [auto |]. simpl.
    unfold after. rewrite fetchPosts_run. simpl.
    destruct (outcome _ fetched) as [data |] eqn:Ho; simpl; [| auto].
    apply body_of_outcome in Ho. rewrite Ho in He. auto.
Qed.

(** X3.  As long as every response that delivers a body delivers one of
    the declared type (a user record or [null] from the user endpoint,
    an array of posts from the posts endpoint), the component renders a
    view at every point of its life, across changes of the identifier as
    well: it never throws. *)
Theorem typed_responses_never_throw (id : string) (events : list Event) :
  forallb honours_contract events = true ->
  exists view, render (state (run (mount id) events)) = Ok view.
Proof.
  intros Hall.
  assert (Htyped :
            conforms_User_or_null (user (state (run (mount id) events))) = true
            /\ conforms_Posts (posts (state (run (mount id) events))) = true).
  { assert (Hmount :
              conforms_User_or_null (user (state (mount id))) = true
              /\ conforms_Posts (posts (state (mount id))) = true).
    { unfold mount, effect. destruct (String.eqb id ""); split; reflexivity. }
    revert Hall Hmount. generalize (mount id).
    induction events as [| e events IH]; intros w Hall Hw; simpl in *.
    - exact Hw.
    - apply andb_prop in Hall. destruct Hall as [He Hrest].
      apply IH; [exact Hrest | apply step_keeps_types; assumption]. }
  destruct Htyped as [Hu Hp].
  apply render_of_renderable;
    [apply conforms_User_renderable, Hu | apply conforms_Posts_renderable, Hp].
Qed.

Lemma typed_responses_never_throw_witness :
  exists view,
    render (state (run (mount "1")
                     [PostsSettles (respond 200 (JArr [sample_post]));
                      Rerender "2";
                      UserSettles (respond 200 JNull);
                      UserSettles (respond 200 (sample_user "1" "2"));
                      PostsSettles (respond 500 (JStr "oops"))]))
    = Ok view.
Proof.
  apply (typed_responses_never_throw "1"
           [PostsSettles (respond 200 (JArr [sample_post]));
            Rerender "2";
            UserSettles (respond 200 JNull);
            UserSettles (respond 200 (sample_user "1" "2"));
            PostsSettles (respond 500 (JStr "oops"))]).
  reflexivity.
Defined.

(** ** What the loaders never undo *)

Lemma step_flags_stay_down (w : World) (e : Event) :
  (loadingUser (state w) = false -> loadingUser (state (step w e)) = false)
  /\ (loadingPosts (state w) = false ->
      loadingPosts (state (step w e)) = false).
Proof.
  destruct e as [id | fetched | fetched]; simpl.
  - destruct (String.eqb id (deps w)); [auto |].
    unfold effect. destruct (String.eqb id ""); simpl; auto.
  - destruct (awaitingUser w); [auto |]. simpl.
    unfold after. rewrite fetchUser_run. simpl.
    destruct (outcome _ fetched); simpl; auto.
  - destruct (awaitingPosts w); [auto |]. simpl.
    unfold after. rewrite fetchPosts_run. simpl.
    destruct (outcome _ fetched); simpl; auto.
Qed.

(** X4.  A loading flag that has been cleared is never raised again,
    whatever happens afterwards, a change of the identifier included:
    once the full-page spinner has gone, no later view is that spinner
    (a new identifier is loaded behind the content of the old one). *)
Theorem loading_never_returns (w : World) (events : list Event) :
  (loadingUser (state w) = false ->
   loadingUser (state (run w events)) = false
   /\ render (state (run w events)) <> Ok (Spinner "Loading user..."))
  /\ (loadingPosts (state w) = false ->
      loadingPosts (state (run w events)) = false).
Proof.
  assert (Hflags :
            (loadingUser (state w) = false ->
             loadingUser (state (run w events)) = false)
            /\ (loadingPosts (state w) = false ->
                loadingPosts (state (run w events)) = false)).
  { revert w. induction events as [| e events IH]; intros w; simpl.
    - auto.
    - destruct (IH (step w e)) as [IHu IHp].
      destruct (step_flags_stay_down w e) as [Hu Hp]. auto. }
  destruct Hflags as [Hu Hp]. split; [| exact Hp].
  intros H. specialize (Hu H). split; [exact Hu |].
  unfold render. rewrite Hu.
  destruct (truthy_msg (errorUser (state (run w events)))); [discriminate |].
  destruct (render_profile _); [| discriminate].
  destruct (render_map _); [| discriminate].
  destruct (render_posts _); discriminate.
Qed.

Lemma loading_never_returns_witness :
  loadingUser
    (state (run (run (mount "1") [UserSettles (respond 200 JNull)])
              [Rerender "2"; PostsSettles (respond 200 (JArr []))]))
  = false.
Proof.
  destruct (loading_never_returns
              (run (mount "1") [UserSettles (respond 200 JNull)])
              [Rerender "2"; PostsSettles (respond 200 (JArr []))])
    as [H _].
  destruct H as [H _]; [reflexivity | exact H].
Defined.

Lemma step_errors_stay (w : World) (e : Event) :
  (errorUser (state w) <> None -> errorUser (state (step w e)) <> None)
  /\ (errorPosts (state w) <> None -> errorPosts (state (step w e)) <> None).
Proof.
  destruct e as [id | fetched | fetched]; simpl.
  - destruct (String.eqb id (deps w)); [auto |].
    unfold effect. destruct (String.eqb id ""); simpl; auto.
  - destruct (awaitingUser w); [auto |]. simpl.
    unfold after. rewrite fetchUser_run. simpl.
    destruct (outcome _ fetched); simpl; split; auto; discriminate.
  - destruct (awaitingPosts w); [auto |]. simpl.
    unfold after. rewrite fetchPosts_run. simpl.
    destruct (outcome _ fetched); simpl; split; auto; discriminate.
Qed.

(** X5.  A stored error is never cleared: once a resource's error cell
    holds a message it holds one (possibly a later one) ever after, also
    after the identifier has changed and later responses have
    succeeded. *)
Theorem errors_never_cleared (w : World) (events : list Event) :
  (errorUser (state w) <> None -> errorUser (state (run w events)) <> None)
  /\ (errorPosts (state w) <> None ->
      errorPosts (state (run w events)) <> None).
Proof.
  revert w. induction events as [| e events IH]; intros w; simpl.
  - auto.
  - destruct (IH (step w e)) as [IHu IHp].
    destruct (step_errors_stay w e) as [Hu Hp]. auto.
Qed.

Lemma errors_never_cleared_witness :
  errorUser
    (state (run (run (mount "1") [UserSettles (respond 404 JNull)])
              [Rerender "2"; UserSettles (respond 200 (sample_user "1" "2"))]))
  <> None.
Proof.
  destruct (errors_never_cleared
              (run (mount "1") [UserSettles (respond 404 JNull)])
              [Rerender "2"; UserSettles (respond 200 (sample_user "1" "2"))])
    as [H _].
  apply H. discriminate.
Defined.

(** X6.  A successful response does not clear an error stored earlier
    (by a loader started for a previous identifier): the payload is
    stored, yet with a non-empty user error the view is still only that
    error, and with a non-empty posts error the posts section is still
    that error. *)
Theorem success_keeps_stale_error (s : State) (res : Response)
    (data : JsValue) (m : string) :
  ok res = true -> json res = Resolved data -> m <> "" ->
  (errorUser s = Some m ->
   let s' := after (fetchUser (Resolved res)) s in
   user s' = data /\ errorUser s' = Some m
   /\ render s' = Ok (ErrorMessage m))
  /\ (errorPosts s = Some m ->
      let s' := after (fetchPosts (Resolved res)) s in
      posts s' = data /\ errorPosts s' = Some m
      /\ render_posts s' = Ok (PostsError m)).
Proof.
  intros Hok Hjson Hm.
  split; intros He; unfold after;
    rewrite ?fetchUser_run, ?fetchPosts_run; simpl;
    rewrite Hok, Hjson; simpl;
    (split; [reflexivity | split; [exact He |]]).
  - apply render_user_error; [reflexivity | exact He | exact Hm].
  - apply render_posts_error; [reflexivity | exact He | exact Hm].
Qed.

Lemma success_keeps_stale_error_witness :
  render (state (run (mount "1")
                   [UserSettles (respond 404 JNull); Rerender "2";
                    UserSettles (respond 200 (sample_user "1" "2"))]))
  = Ok (ErrorMessage "Failed to fetch user").
Proof.
  destruct (success_keeps_stale_error
              (state (run (mount "1")
                        [UserSettles (respond 404 JNull); Rerender "2"]))
              {| status := 200; json := Resolved (sample_user "1" "2") |}
              (sample_user "1" "2") "Failed to fetch user")
    as [H _].
  - reflexivity.
  - reflexivity.
  - discriminate.
  - destruct H as (_ & _ & H); [reflexivity | exact H].
Defined.

(** ** Where the content of the cells comes from *)

Lemma run_cells_provenance (events : list Event) :
  forall w,
    let s' := state (run w events) in
    (user s' = user (state w)
     \/ exists fetched,
          In (UserSettles fetched) events /\ body_of fetched = Some (user s'))
    /\ (posts s' = posts (state w)
        \/ exists fetched,
             In (PostsSettles fetched) events
             /\ body_of fetched = Some (posts s'))
    /\ (errorUser s' = errorUser (state w)
        \/ exists fetched t,
             In (UserSettles fetched) events
             /\ throws "Failed to fetch user" fetched t
             /\ errorUser s' = Some (caught_message t))
    /\ (errorPosts s' = errorPosts (state w)
        \/ exists fetched t,
             In (PostsSettles fetched) events
             /\ throws "Failed to fetch posts" fetched t
             /\ errorPosts s' = Some (caught_message t)).
Proof.
  induction events as [| e events IH]; intros w; simpl.
  - repeat split; left; reflexivity.
  - destruct (IH (step w e)) as (Hu & Hp & Heu & Hep). clear IH.
    assert (Hstep :
              (user (state (step w e)) = user (state w)
               \/ exists fetched, e = UserSettles fetched
                    /\ body_of fetched = Some (user (state (step w e))))
              /\ (posts (state (step w e)) = posts (state w)
                  \/ exists fetched, e = PostsSettles fetched
                       /\ body_of fetched = Some (posts (state (step w e))))
              /\ (errorUser (state (step w e)) = errorUser (state w)
                  \/ exists fetched t, e = UserSettles fetched
                       /\ throws "Failed to fetch user" fetched t
                       /\ errorUser (state (step w e))
                          = Some (caught_message t))
              /\ (errorPosts (state (step w e)) = errorPosts (state w)
                  \/ exists fetched t, e = PostsSettles fetched
                       /\ throws "Failed to fetch posts" fetched t
                       /\ errorPosts (state (step w e))
                          = Some (caught_message t))).
    { destruct e as [id | fetched | fetched]; simpl.
      - destruct (String.eqb id (deps w)); [repeat split; left; reflexivity |].
        unfold effect. destruct (String.eqb id ""); simpl;
          repeat split; left; reflexivity.
      - destruct (awaitingUser w); [repeat split; left; reflexivity |].
        simpl. unfold after. rewrite fetchUser_run. simpl.
        destruct (outcome _ fetched) as [data | t] eqn:Ho; simpl.
        + apply body_of_outcome in Ho.
          split; [right; exists fetched; auto |].
          repeat split; left; reflexivity.
        + apply throws_outcome in Ho.
          split; [left; reflexivity |]. split; [left; reflexivity |].
          split; [right; exists fetched, t; auto | left; reflexivity].
      - destruct (awaitingPosts w); [repeat split; left; reflexivity |].
        simpl. unfold after. rewrite fetchPosts_run. simpl.
        destruct (outcome _ fetched) as [data | t] eqn:Ho; simpl.
        + apply body_of_outcome in Ho.
          split; [left; reflexivity |].
          split; [right; exists fetched; auto |].
          split; left; reflexivity.
        + apply throws_outcome in Ho.
          split; [left; reflexivity |]. split; [left; reflexivity |].
          split; [left; reflexivity | right; exists fetched, t; auto]. }
    destruct Hstep as (Su & Sp & Seu & Sep).
    split; [| split; [| split]].
    + destruct Hu as [Hu | (f & Hin & Hb)]; [| right; exists f; auto].
      destruct Su as [Su | (f & -> & Hb)]; [left; congruence |].
      right. exists f. split; [left; reflexivity | congruence].
    + destruct Hp as [Hp | (f & Hin & Hb)]; [| right; exists f; auto].
      destruct Sp as [Sp | (f & -> & Hb)]; [left; congruence |].
      right. exists f. split; [left; reflexivity | congruence].
    + destruct Heu as [Heu | (f & t & Hin & Ht & Hm)];
        [| right; exists f, t; auto].
      destruct Seu as [Seu | (f & t & -> & Ht & Hm)]; [left; congruence |].
      right. exists f, t. split; [left; reflexivity | split; congruence].
    + destruct Hep as [Hep | (f & t & Hin & Ht & Hm)];
        [| right; exists f, t; auto].
      destruct Sep as [Sep | (f & t & -> & Ht & Hm)]; [left; congruence |].
      right. exists f, t. split; [left; reflexivity | split; congruence].
Qed.

(** X7.  Whatever has happened since mounting, the user cell holds
    [null] or the parsed body of some user response with a success
    status, and the posts cell holds the empty array or the parsed body
    of some posts response with a success status: the body of a
    response with another status is never stored. *)
Theorem payload_provenance (id : string) (events : list Event) :
  let s := state (run (mount id) events) in
  (user s = JNull
   \/ exists fetched,
        In (UserSettles fetched) events /\ body_of fetched = Some (user s))
  /\ (posts s = JArr []
      \/ exists fetched,
           In (PostsSettles fetched) events
           /\ body_of fetched = Some (posts s)).
Proof.
  intros s. destruct (run_cells_provenance events (mount id)) as (Hu & Hp & _).
  assert (Hmount : user (state (mount id)) = JNull
                   /\ posts (state (mount id)) = JArr []).
  { unfold mount, effect. destruct (String.eqb id ""); split; reflexivity. }
  destruct Hmount as [Mu Mp]. rewrite Mu in Hu. rewrite Mp in Hp.
  split; assumption.
Qed.

(** X8.  Whatever has happened since mounting, an error cell holds a
    message only if some response to that resource's loader made its
    [try] block throw, and the message is the one the [catch] block took
    from that thrown value.  So an error view always reports a failure of
    the user fetch that really occurred. *)
Theorem error_provenance (id : string) (events : list Event) :
  let s := state (run (mount id) events) in
  (errorUser s = None
   \/ exists fetched t,
        In (UserSettles fetched) events
        /\ throws "Failed to fetch user" fetched t
        /\ errorUser s = Some (caught_message t))
  /\ (errorPosts s = None
      \/ exists fetched t,
           In (PostsSettles fetched) events
           /\ throws "Failed to fetch posts" fetched t
           /\ errorPosts s = Some (caught_message t))
  /\ (forall m,
        render s = Ok (ErrorMessage m) ->
        exists fetched t,
          In (UserSettles fetched) events
          /\ throws "Failed to fetch user" fetched t
          /\ caught_message t = m).
Proof.
  intros s.
  destruct (run_cells_provenance events (mount id)) as (_ & _ & Hu & Hp).
  assert (Hmount : errorUser (state (mount id)) = None
                   /\ errorPosts (state (mount id)) = None).
  { unfold mount, effect. destruct (String.eqb id ""); split; reflexivity. }
  destruct Hmount as [Mu Mp]. rewrite Mu in Hu. rewrite Mp in Hp.
  fold s in Hu, Hp.
  split; [exact Hu | split; [exact Hp |]].
  intros m Hr. unfold render in Hr.
  destruct (loadingUser s); [discriminate |].
  destruct (errorUser s) as [m0 |] eqn:He; simpl in Hr.
  - destruct Hu as [Hu | (f & t & Hin & Ht & Hm)]; [discriminate |].
    exists f, t. split; [exact Hin | split; [exact Ht |]].
    injection Hm as ->. destruct (String.eqb (caught_message t) "").
    + destruct (render_profile _); [| discriminate].
      destruct (render_map _); [| discriminate].
      destruct (render_posts _); discriminate.
    + congruence.
  - destruct (render_profile _); [| discriminate].
    destruct (render_map _); [| discriminate].
    destruct (render_posts _); discriminate.
Qed.

Lemma error_provenance_witness :
  exists fetched t,
    In (UserSettles fetched)
       [PostsSettles (respond 200 (JArr [])); UserSettles (respond 404 JNull)]
    /\ throws "Failed to fetch user" fetched t
    /\ caught_message t = "Failed to fetch user".
Proof.
  destruct (error_provenance "1"
              [PostsSettles (respond 200 (JArr []));
               UserSettles (respond 404 JNull)]) as (_ & _ & H).
  apply H. reflexivity.
Defined.

(** ** Requests and identifiers *)

Lemma run_requests (events : list Event) :
  forall w,
    requests (run w events)
    = (requests w ++ flat_map request_pair (started (deps w) events))%list.
Proof.
  induction events as [| e events IH]; intros w; simpl.
  - rewrite app_nil_r. reflexivity.
  - rewrite IH. destruct e as [id | fetched | fetched]; simpl.
    + destruct (String.eqb id (deps w)); [reflexivity |].
      rewrite flat_map_app, app_assoc.
      unfold effect, loads. destruct (String.eqb id ""); simpl.
      * rewrite app_nil_r. reflexivity.
      * reflexivity.
    + destruct (awaitingUser w); reflexivity.
    + destruct (awaitingPosts w); reflexivity.
Qed.

(** X9.  Over the whole life of the component, identifier changes
    included, the requests issued are exactly one user request followed
    by one posts request for the identifier it was mounted with and for
    each later identifier that differs from the one before it, in that
    order; an empty identifier issues none, a response or a re-render
    with the same identifier issues none, and returning to an earlier
    identifier fetches it again. *)
Theorem requests_follow_identifier (id : string) (events : list Event) :
  requests (run (mount id) events)
  = flat_map request_pair (loads id ++ started id events)%list.
Proof.
  rewrite run_requests, flat_map_app.
  unfold mount, effect, loads.
  destruct (String.eqb id ""); reflexivity.
Qed.

(** X11.  Mounted with the empty identifier, the component never leaves
    its initial state: nothing is requested, no loader waits, and every
    view is the full-page spinner. *)
Theorem empty_id_loads_forever (events : list Event) :
  forallb (keeps_id "") events = true ->
  run (mount "") events = mount ""
  /\ requests (run (mount "") events) = []
  /\ render (state (run (mount "") events)) = Ok (Spinner "Loading user...").
Proof.
  intros Hall.
  assert (Hrun : run (mount "") events = mount "").
  { induction events as [| e events IH]; simpl in *; [reflexivity |].
    apply andb_prop in Hall. destruct Hall as [He Hrest].
    destruct e as [id | fetched | fetched]; simpl in *.
    - rewrite He. apply IH, Hrest.
    - apply IH, Hrest.
    - apply IH, Hrest. }
  rewrite Hrun. repeat split.
Qed.

Lemma empty_id_loads_forever_witness :
  render (state (run (mount "")
                   [Rerender ""; UserSettles (respond 200 (sample_user "1" "2"));
                    PostsSettles (respond 200 (JArr [sample_post]))]))
  = Ok (Spinner "Loading user...").
Proof.
  destruct (empty_id_loads_forever
              [Rerender ""; UserSettles (respond 200 (sample_user "1" "2"));
               PostsSettles (respond 200 (JArr [sample_post]))])
    as (_ & _ & H).
  - reflexivity.
  - exact H.
Defined.

Lemma loading_flag_of_spinner (s : State) :
  render s = Ok (Spinner "Loading user...") -> loadingUser s = true.
Proof.
  unfold render. destruct (loadingUser s); [reflexivity |].
  destruct (truthy_msg (errorUser s)); [discriminate |].
  destruct (render_profile _); [| discriminate].
  destruct (render_map _); [| discriminate].
  destruct (render_posts _); discriminate.
Qed.

Lemma waiting_matches_flags (id : string) (events : list Event) :
  id <> "" ->
  forallb (keeps_id id) events = true ->
  let w := run (mount id) events in
  deps w = id
  /\ awaitingUser w = (if loadingUser (state w) then 1 else 0)
  /\ awaitingPosts w = (if loadingPosts (state w) then 1 else 0).
Proof.
  intros Hid Hall.
  assert (Hmount :
            deps (mount id) = id
            /\ awaitingUser (mount id)
               = (if loadingUser (state (mount id)) then 1 else 0)
            /\ awaitingPosts (mount id)
               = (if loadingPosts (state (mount id)) then 1 else 0)).
  { apply String.eqb_neq in Hid. unfold mount, effect. rewrite Hid.
    repeat split. }
  revert Hall Hmount. generalize (mount id).
  induction events as [| e events IH]; intros w Hall Hw; simpl in *.
  - exact Hw.
  - apply andb_prop in Hall. destruct Hall as [He Hrest].
    apply IH; [exact Hrest |]. destruct Hw as (Hd & Hu & Hp).
    destruct e as [id' | fetched | fetched]; simpl in *.
    + apply String.eqb_eq in He. subst id'. rewrite Hd, String.eqb_refl.
      auto.
    + destruct (awaitingUser w) as [| n] eqn:Hn; [rewrite Hn; auto |]. simpl.
      unfold after. rewrite fetchUser_run. simpl.
      destruct (loadingUser (state w)); [| discriminate].
      injection Hu as ->.
      destruct (outcome _ fetched); simpl; auto.
    + destruct (awaitingPosts w) as [| n] eqn:Hn; [rewrite Hn; auto |]. simpl.
      unfold after. rewrite fetchPosts_run. simpl.
      destruct (loadingPosts (state w)); [| discriminate].
      injection Hp as ->.
      destruct (outcome _ fetched); simpl; auto.
Qed.

(** X12.  While the component stays mounted with a non-empty identifier,
    the full-page spinner is the view exactly as long as the user
    response has not arrived, and the posts loading flag is up exactly as
    long as the posts response has not arrived: the first response to
    each request settles its resource, and nothing else does. *)
Theorem spinner_while_outstanding (id : string) (events : list Event) :
  id <> "" ->
  forallb (keeps_id id) events = true ->
  let w := run (mount id) events in
  (render (state w) = Ok (Spinner "Loading user...") <-> awaitingUser w = 1)
  /\ (loadingPosts (state w) = true <-> awaitingPosts w = 1).
Proof.
  intros Hid Hall w.
  destruct (waiting_matches_flags id events Hid Hall) as (_ & Hu & Hp).
  fold w in Hu, Hp. rewrite Hu, Hp. split.
  - destruct (loadingUser (state w)) eqn:Hl.
    + split; [reflexivity | intros _; apply render_loading, Hl].
    + split; [| discriminate].
      intros Hr. exfalso.
      pose proof (loading_flag_of_spinner (state w) Hr). congruence.
  - destruct (loadingPosts (state w)); split; congruence.
Qed.

Lemma spinner_while_outstanding_witness :
  (render (state (run (mount "3") [PostsSettles (respond 200 (JArr []))]))
   = Ok (Spinner "Loading user...")
   <-> awaitingUser (run (mount "3") [PostsSettles (respond 200 (JArr []))])
       = 1)
  /\ (loadingPosts
        (state (run (mount "3") [PostsSettles (respond 200 (JArr []))]))
      = true
      <-> awaitingPosts
            (run (mount "3") [PostsSettles (respond 200 (JArr []))]) = 1).
Proof.
  apply (spinner_while_outstanding "3" [PostsSettles (respond 200 (JArr []))]).
  - discriminate.
  - reflexivity.
Defined.

(** ** Order of arrival *)

Lemma loaders_commute (a b : Settled Response) (s : State) :
  after (fetchPosts b) (after (fetchUser a) s)
  = after (fetchUser a) (after (fetchPosts b) s).
Proof.
  unfold after. rewrite !fetchUser_run, !fetchPosts_run. simpl.
  destruct (outcome _ a), (outcome _ b); reflexivity.
Qed.

Lemma settle_commute (o : option (Settled Response))
    (b : Settled Response) (s : State) :
  settle_user o (after (fetchPosts b) s)
  = after (fetchPosts b) (settle_user o s).
Proof.
  destruct o as [a |]; simpl; [symmetry; apply loaders_commute | reflexivity].
Qed.

Lemma run_first_responses (id : string) (events : list Event) :
  forall w,
    forallb (keeps_id id) events = true ->
    deps w = id -> awaitingUser w <= 1 -> awaitingPosts w <= 1 ->
    state (run w events)
    = settle_posts
        (if (awaitingPosts w =? 1)%nat then first_posts events else None)
        (settle_user
           (if (awaitingUser w =? 1)%nat then first_user events else None)
           (state w)).
Proof.
  induction events as [| e events IH]; intros w Hall Hd Hu Hp; simpl in *.
  - destruct (awaitingPosts w =? 1)%nat, (awaitingUser w =? 1)%nat;
      reflexivity.
  - apply andb_prop in Hall. destruct Hall as [He Hrest].
    destruct e as [id' | fetched | fetched]; simpl in *.
    + apply String.eqb_eq in He. subst id'. rewrite Hd, String.eqb_refl.
      apply IH; assumption.
    + destruct (awaitingUser w) as [| [| n]] eqn:Hn; [| | lia].
      * rewrite IH by (try assumption; rewrite ?Hn; lia).
        rewrite Hn. reflexivity.
      * rewrite IH by (simpl; try assumption; lia). simpl. reflexivity.
    + destruct (awaitingPosts w) as [| [| n]] eqn:Hn; [| | lia].
      * rewrite IH by (try assumption; rewrite ?Hn; lia).
        rewrite Hn. reflexivity.
      * rewrite IH by (simpl; try assumption; lia). simpl.
        apply settle_commute.
Qed.

(** X13.  While the component stays mounted with a non-empty
    identifier, its state is the initial state settled by the first user
    response and by the first posts response, if they have arrived: the
    order in which the two arrive, re-renders in between and any further
    response make no difference. *)
Theorem state_from_first_responses (id : string) (events : list Event) :
  id <> "" ->
  forallb (keeps_id id) events = true ->
  state (run (mount id) events)
  = settle_posts (first_posts events) (settle_user (first_user events) initial).
Proof.
  intros Hid Hall. apply String.eqb_neq in Hid.
  rewrite (run_first_responses id events (mount id) Hall);
    unfold mount, effect; rewrite Hid; simpl; try reflexivity; lia.
Qed.

Lemma state_from_first_responses_witness :
  state (run (mount "1")
           [PostsSettles (respond 200 (JArr [sample_post])); Rerender "1";
            UserSettles (respond 404 JNull);
            UserSettles (respond 200 (sample_user "1" "2"))])
  = state (run (mount "1")
             [UserSettles (respond 404 JNull);
              PostsSettles (respond 200 (JArr [sample_post]))]).
Proof.
  rewrite (state_from_first_responses "1"
             [PostsSettles (respond 200 (JArr [sample_post])); Rerender "1";
              UserSettles (respond 404 JNull);
              UserSettles (respond 200 (sample_user "1" "2"))]);
    [| discriminate | reflexivity].
  rewrite (state_from_first_responses "1"
             [UserSettles (respond 404 JNull);
              PostsSettles (respond 200 (JArr [sample_post]))]);
    [| discriminate | reflexivity].
  reflexivity.
Defined.

(** X14.  Nothing is cancelled when the identifier changes: the loader
    started for the old identifier keeps waiting beside the new one,
    both responses are applied as they arrive, and the user the cell
    ends up with is the one delivered by the response that arrived last,
    whichever request it answers. *)
Theorem stale_response_is_applied (a b : string)
    (first later : Settled Response) (data : JsValue) :
  a <> "" -> b <> "" -> a <> b ->
  body_of later = Some data ->
  let w := run (mount a) [Rerender b] in
  requests w = (request_pair a ++ request_pair b)%list
  /\ awaitingUser w = 2
  /\ awaitingUser (run w [UserSettles first; UserSettles later]) = 0
  /\ user (state (run w [UserSettles first; UserSettles later])) = data.
Proof.
  intros Ha Hb Hab Hbody.
  apply String.eqb_neq in Ha. apply String.eqb_neq in Hb.
  assert (Hba : String.eqb b a = false)
    by (apply String.eqb_neq; congruence).
  apply (body_of_outcome "Failed to fetch user") in Hbody.
  unfold mount, effect. simpl. rewrite Ha. simpl. rewrite Hba.
  unfold effect. rewrite Hb. simpl.
  unfold after. rewrite !fetchUser_run. simpl. rewrite Hbody. simpl.
  repeat split.
Qed.

Lemma stale_response_is_applied_witness :
  user (state (run (run (mount "1") [Rerender "2"])
                 [UserSettles (respond 200 (sample_user "2" "2"));
                  UserSettles (respond 200 (sample_user "1" "1"))]))
  = sample_user "1" "1".
Proof.
  destruct (stale_response_is_applied "1" "2"
              (respond 200 (sample_user "2" "2"))
              (respond 200 (sample_user "1" "1"))
              (sample_user "1" "1")) as (_ & _ & _ & H).
  - discriminate.
  - discriminate.
  - discriminate.
  - reflexivity.
  - exact H.
Defined.
